(** * HL7-to-JSON batch converter: extraction, conversion, aggregation

    Shallow embedding of [HL7Converter] from [main.py]:

    - [extract_hl7_messages_from_markdown]: the [re.findall] call that pulls
      the fenced blocks out of the document text;
    - [convert_hl7_to_json]: the [try ... except Exception] wrapper around
      the external [Hl7Json] parser;
    - [process_file]: the [for i, message in enumerate(messages)] loop that
      builds the result list and the two counters.

    A Python [str] is a list of characters.  The [hl7conv2] parser is an
    external library: it is a parameter of the functions that call it, and
    it either returns a Python value or raises a Python exception.  The two
    [open] calls (reading the document, dumping the result list) are the
    I/O shell around the functions below: [content] is what [file.read()]
    returned and the final [results] list is what [json.dump] receives. *)

From Stdlib Require Import Ascii String ZArith Lia DecimalString DecimalPos.
From stdpp Require Import base list strings gmap.

Open Scope list_scope.

(** ** Python data *)

Definition str := list ascii.

Definition lit (s : string) : str := list_ascii_of_string s.

Definition nl : ascii := "010"%char.
Definition bt : ascii := "`"%char.

(** The values [json.dump] accepts, which is what [hl7_obj.hl7_json] holds
    (numbers are kept to the integers). *)
#[local] Unset Elimination Schemes.
Inductive pyval :=
| PNone
| PBool (b : bool)
| PInt (z : Z)
| PStr (s : str)
| PList (items : list pyval)
| PDict (items : list (str * pyval)).
#[local] Set Elimination Schemes.

(** Python truth value testing, as [if json_data:] performs it. *)
Definition truthy (v : pyval) : bool :=
  match v with
  | PNone => false
  | PBool b => b
  | PInt z => negb (z =? 0)%Z
  | PStr s => match s with [] => false | _ => true end
  | PList items => match items with [] => false | _ => true end
  | PDict items => match items with [] => false | _ => true end
  end.

(** ** Python exceptions *)

Inductive exc_class :=
| ValueError | KeyError | IndexError | TypeError | AttributeError
| RuntimeError | ImportError | MemoryError | RecursionError
| KeyboardInterrupt | SystemExit | GeneratorExit.

(** [issubclass(c, Exception)] in the built-in hierarchy: only
    [KeyboardInterrupt], [SystemExit] and [GeneratorExit] derive from
    [BaseException] directly. *)
Definition derives_from_Exception (c : exc_class) : bool :=
  match c with
  | KeyboardInterrupt | SystemExit | GeneratorExit => false
  | _ => true
  end.

Record py_exception := mk_exception {
  exc_type : exc_class;
  exc_text : str            (* str(e) *)
}.

(** How a call completes: with a value, or with a raised exception. *)
Inductive completion (A : Type) :=
| Returns (a : A)
| Raises (e : py_exception).
Arguments Returns {A} a.
Arguments Raises {A} e.

(** Sequencing: an exception raised by the first call skips the rest. *)
#[global] Instance completion_bind : MBind completion := fun A B k c =>
  match c with
  | Returns a => k a
  | Raises e => Raises e
  end.

(** [try: body except Exception as e: handler(e)] *)
Definition try_except_Exception {A} (body : completion A)
    (handler : py_exception -> completion A) : completion A :=
  match body with
  | Returns a => Returns a
  | Raises e =>
      if derives_from_Exception (exc_type e) then handler e else Raises e
  end.

(** ** The regular expression [r'```\n(.*?)\n```'] under [re.DOTALL] *)

Module Re.

(** The literal before the group and the literal after it. *)
Definition fence_open : str := [bt; bt; bt; nl].
Definition fence_close : str := [nl; bt; bt; bt].

Fixpoint startswith (p s : str) : bool :=
  match p, s with
  | [], _ => true
  | _ :: _, [] => false
  | a :: p', b :: s' => Ascii.eqb a b && startswith p' s'
  end.

(** [(.*?)] followed by the literal [p]: the group grows one character at
    a time (any character, [DOTALL]) until [p] matches right after it.
    Returns the group and the text after [p]. *)
Fixpoint lazy_until (p s : str) : option (str * str) :=
  if startswith p s then Some ([], drop (length p) s)
  else match s with
       | [] => None
       | c :: s' =>
           match lazy_until p s' with
           | Some (g, rest) => Some (c :: g, rest)
           | None => None
           end
       end.

(** One attempt to match the whole pattern at the start of [s]: the
    captured group and the number of characters the match spans. *)
Definition match_at (s : str) : option (str * nat) :=
  if startswith fence_open s then
    match lazy_until fence_close (drop (length fence_open) s) with
    | Some (g, _) =>
        Some (g, length fence_open + length g + length fence_close)
    | None => None
    end
  else None.

(** [re.findall]: the matches are searched from left to right and do not
    overlap; with one group in the pattern the list holds the groups.
    [skip] counts the characters still covered by the previous match. *)
Fixpoint scan (skip : nat) (s : str) : list str :=
  match s with
  | [] => []
  | _ :: s' =>
      match skip with
      | S k => scan k s'
      | O =>
          match match_at s with
          | Some (g, n) => g :: scan (pred n) s'
          | None => scan 0 s'
          end
      end
  end.

Definition findall (s : str) : list str := scan 0 s.

End Re.

(** ** HL7Converter *)

(** [messages = re.findall(pattern, content, re.DOTALL)] *)
Definition extract_hl7_messages_from_markdown (content : str) : list str :=
  Re.findall content.

(** The external parser: [Hl7Json(hl7_message).hl7_json]. *)
Definition parser := str -> completion pyval.

(** Returns the tuple [(json_data, None)] or [(None, str(e))]. *)
Definition convert_hl7_to_json (Hl7Json : parser) (hl7_message : str)
  : completion (pyval * option str) :=
  try_except_Exception
    (json_data ← Hl7Json hl7_message;
     Returns (json_data, None))
    (fun e => Returns (PNone, Some (exc_text e))).

(** One entry of the [results] list (a dict with a fixed set of keys). *)
Inductive result :=
| success_result (message_index : nat) (data : pyval)
| failed_result (message_index : nat) (error : option str)
    (original_message : str).

Record report := mk_report {
  successful : nat;
  failed : nat;
  results : list result
}.

Definition empty_report : report :=
  {| successful := 0; failed := 0; results := [] |}.

(** The body of the [for] loop, for the pair [(i, message)]. *)
Definition loop_body (Hl7Json : parser) (st : report) (i : nat)
    (message : str) : completion report :=
  '(json_data, error) ← convert_hl7_to_json Hl7Json message;
  if truthy json_data then
    Returns {| successful := successful st + 1;
               failed := failed st;
               results := results st ++ [success_result (i + 1) json_data] |}
  else
    Returns {| successful := successful st;
               failed := failed st + 1;
               results := results st ++ [failed_result (i + 1) error message] |}.

(** [for i, message in enumerate(messages)], counting from [i]. *)
Fixpoint for_enumerate (Hl7Json : parser) (i : nat) (messages : list str)
    (st : report) : completion report :=
  match messages with
  | [] => Returns st
  | message :: rest =>
      st' ← loop_body Hl7Json st i message;
      for_enumerate Hl7Json (S i) rest st'
  end.

(** [process_file]: the returned pair is [(successful, failed)], and
    [results] is the list dumped to the output file. *)
Definition process_file (Hl7Json : parser) (content : str)
  : completion report :=
  let messages := extract_hl7_messages_from_markdown content in
  for_enumerate Hl7Json 0 messages empty_report.

(** ** Vocabulary of the statements *)

(** The literal [p] occurs somewhere in [s]. *)
Fixpoint occurs (p s : str) : bool :=
  Re.startswith p s ||
  match s with
  | [] => false
  | _ :: s' => occurs p s'
  end.

(** The document holds an opening marker line and, after it, a closing one. *)
Definition has_marker_pair (content : str) : Prop :=
  exists pre g post,
    content = pre ++ Re.fence_open ++ g ++ Re.fence_close ++ post.

Definition message_index (r : result) : nat :=
  match r with
  | success_result i _ => i
  | failed_result i _ _ => i
  end.

(** [conversion_status == "success"] and [conversion_status == "failed"]. *)
Definition is_success (r : result) : bool :=
  match r with success_result _ _ => true | failed_result _ _ _ => false end.

Definition is_failed (r : result) : bool :=
  match r with success_result _ _ => false | failed_result _ _ _ => true end.

Fixpoint count (f : result -> bool) (rs : list result) : nat :=
  match rs with
  | [] => 0
  | r :: rs' => (if f r then 1 else 0) + count f rs'
  end.

(** The parser signals a failure that [except Exception] catches. *)
Definition malformed (Hl7Json : parser) (message : str) : Prop :=
  exists e, Hl7Json message = Raises e /\
            derives_from_Exception (exc_type e) = true.

(** The parser returns the message's structured value, a non-empty one. *)
Definition well_formed (Hl7Json : parser) (message : str) : Prop :=
  exists v, Hl7Json message = Returns v /\ truthy v = true.

(** The parser returns, or raises something [except Exception] catches. *)
Definition recoverable (c : completion pyval) : bool :=
  match c with
  | Returns _ => true
  | Raises e => derives_from_Exception (exc_type e)
  end.

(** The entry the loop appends for [(i, message)] when the conversion of
    [message] comes back. *)
Definition entry_for (Hl7Json : parser) (i : nat) (message : str) : result :=
  match Hl7Json message with
  | Returns v =>
      if truthy v then success_result (i + 1) v
      else failed_result (i + 1) None message
  | Raises e => failed_result (i + 1) (Some (exc_text e)) message
  end.

Fixpoint entries_from (Hl7Json : parser) (i : nat) (messages : list str)
  : list result :=
  match messages with
  | [] => []
  | m :: rest => entry_for Hl7Json i m :: entries_from Hl7Json (S i) rest
  end.

(** A stand-in parser for the examples: a message that starts with the
    [MSH] segment converts to a one-key object, anything else is rejected
    with [ValueError]. *)
Definition demo_parser : parser := fun message =>
  match message with
  | "M"%char :: "S"%char :: "H"%char :: _ =>
      Returns (PDict [(lit "MSH", PStr message)])
  | _ => Raises (mk_exception ValueError (lit "not an HL7 message"))
  end.

Definition block (body : str) : str :=
  Re.fence_open ++ body ++ Re.fence_close.

(** The triple-backquote marker on its own. *)
Definition fence : str := [bt; bt; bt].

(** Parsers that fail for a reason unrelated to the message. *)
Definition out_of_memory_parser : parser := fun _ =>
  Raises (mk_exception MemoryError (lit "out of memory")).

Definition interrupted_parser : parser := fun _ =>
  Raises (mk_exception KeyboardInterrupt []).

(** A parser whose result for every message is the empty object [{}]. *)
Definition empty_object_parser : parser := fun _ => Returns (PDict []).

(** Sample documents. *)
Definition doc_good_bad : str :=
  lit "# Messages" ++ [nl] ++
  block (lit "MSH|^~\&|ADT") ++ [nl] ++ lit "then" ++ [nl] ++
  block (lit "garbage") ++ [nl].

Definition doc_good_bad_good : str :=
  block (lit "MSH|1") ++ [nl] ++ block (lit "oops") ++ [nl] ++
  block (lit "MSH|3").

Definition doc_one : str := block (lit "MSH|1").

Definition doc_plain : str := lit "plain text, no fenced block".

(** A document written as fenced blocks: an introduction, then each
    message in its own block, followed by the text that comes after it. *)
Definition fenced_document (intro : str) (parts : list (str * str)) : str :=
  intro ++ concat (map (fun part => block (fst part) ++ snd part) parts).

(** ** excel_to_contacts.py: phone numbers *)

Module Contacts.

(** What the callers pass as [phone_number]: a string, or an integer (the
    test passes both). *)
Inductive phone_value :=
| phone_str (s : str)
| phone_int (z : Z).

(** [str(n)] for an [int]: the decimal digits, after a minus sign when
    negative. *)
Definition str_of_int (z : Z) : str :=
  list_ascii_of_string (NilZero.string_of_int (Z.to_int z)).

(** [phone_number] after [if not isinstance(phone_number, str)]. *)
Definition as_str (phone_number : phone_value) : str :=
  match phone_number with
  | phone_str s => s
  | phone_int z => str_of_int z
  end.

Definition plus : ascii := "+"%char.

(** The character class [0-9]. *)
Definition is_digit (c : ascii) : bool :=
  (48 <=? nat_of_ascii c) && (nat_of_ascii c <=? 57).

(** [re.sub(r'[^0-9]', '', s)] *)
Definition remove_non_digits (s : str) : str := List.filter is_digit s.

Definition clean_phone_number (phone_number : phone_value) : str :=
  let phone_number := as_str phone_number in
  let has_plus := Re.startswith [plus] phone_number in
  let cleaned_number := remove_non_digits phone_number in
  if has_plus then plus :: cleaned_number else cleaned_number.

(** What is left after the greedy [\d+] took its digits. *)
Fixpoint after_digits (s : str) : str :=
  match s with
  | c :: rest => if is_digit c then after_digits rest else s
  | [] => []
  end.

(** The [$] of the pattern: the end of the string, or just before a
    newline that ends the string. *)
Definition at_end (s : str) : bool :=
  match s with
  | [] => true
  | [c] => Ascii.eqb c nl
  | _ => false
  end.

(** [re.match(r'^\+?\d+$', phone_str)] succeeds (the assertion of
    [test_excel_processing]). *)
Definition matches_phone_format (phone_str : str) : bool :=
  let after_plus :=
    match phone_str with
    | c :: rest => if Ascii.eqb c plus then rest else phone_str
    | [] => phone_str
    end in
  match after_plus with
  | [] => false
  | c :: _ => is_digit c && at_end (after_digits after_plus)
  end.

End Contacts.

(** ** main.py on the file system: [process_file], [main], [convert_file] *)

Module OnDisk.

(** The errors of [open], of [file.read()] and of the writing into the
    file.  All of them derive from [Exception]: the first three and the
    last from [OSError], [UnicodeDecodeError] from [ValueError]. *)
Inductive os_error :=
| FileNotFoundError (path : str)
| IsADirectoryError (path : str)
| PermissionError (path : str)
| UnicodeDecodeError (path : str)
| OSError (path : str).

Inductive raised :=
| os_raised (e : os_error)
| parser_raised (e : py_exception).

Definition is_Exception (r : raised) : bool :=
  match r with
  | os_raised _ => true
  | parser_raised e => derives_from_Exception (exc_type e)
  end.

(** What a path that exists names: a file whose bytes decode to the given
    characters, a directory, a file that may not be read, or a file whose
    bytes do not decode. *)
Inductive entry :=
| text_file (chars : str)
| directory
| no_read_permission
| undecodable.

(** What [open(path, 'w')] and the writing that follows do at a path: the
    whole text is written; the [open] fails (the parent directory is
    missing, the path may not be written); or the file is opened, hence
    emptied, and the writing stops with an error after some characters. *)
Inductive write_behaviour :=
| writes_all
| refuses (e : os_error)
| breaks (written : nat) (e : os_error).

Record disk := mk_disk {
  files : gmap str entry;
  on_write : str -> write_behaviour
}.

Inductive outcome (A : Type) :=
| Value (a : A)
| Raise (r : raised).
Arguments Value {A} a.
Arguments Raise {A} r.

Definition cr : ascii := "013"%char.

(** The newline translation of a file opened in text mode for reading:
    [\r\n] and a lone [\r] both become [\n]. *)
Fixpoint translate_newlines (after_cr : bool) (chars : str) : str :=
  match chars with
  | [] => []
  | c :: rest =>
      if Ascii.eqb c cr then nl :: translate_newlines true rest
      else if Ascii.eqb c nl && after_cr then translate_newlines false rest
      else c :: translate_newlines false rest
  end.

(** [with open(path, 'r') as file: file.read()] *)
Definition read_text (d : disk) (path : str) : outcome str :=
  match files d !! path with
  | None => Raise (os_raised (FileNotFoundError path))
  | Some (text_file chars) => Value (translate_newlines false chars)
  | Some directory => Raise (os_raised (IsADirectoryError path))
  | Some no_read_permission => Raise (os_raised (PermissionError path))
  | Some undecodable => Raise (os_raised (UnicodeDecodeError path))
  end.

(** The file at [path] after [chars] were written into it: a file that may
    not be read stays so. *)
Definition put (d : disk) (path : str) (chars : str) : disk :=
  match files d !! path with
  | Some no_read_permission => d
  | _ => {| files := <[path := text_file chars]> (files d);
            on_write := on_write d |}
  end.

(** [with open(path, 'w') as file: json.dump(..., file)], for the text the
    dump produces: the result, and the files afterwards. *)
Definition write_text (d : disk) (path : str) (text : str)
  : outcome unit * disk :=
  match files d !! path with
  | Some directory => (Raise (os_raised (IsADirectoryError path)), d)
  | _ =>
      match on_write d path with
      | writes_all => (Value (), put d path text)
      | refuses e => (Raise (os_raised e), d)
      | breaks written e => (Raise (os_raised e), put d path (take written text))
      end
  end.

(** [os.path.exists(path)]: true of whatever the path names. *)
Definition exists_ (d : disk) (path : str) : bool :=
  bool_decide (is_Some (files d !! path)).

Definition extract_hl7_messages_from_markdown (d : disk) (file_path : str)
  : outcome (list str) :=
  match read_text d file_path with
  | Value content => Value (Re.findall content)
  | Raise r => Raise r
  end.

Section with_libraries.
(** The two libraries: the parser, and [json.dump(results, file, indent=2)]
    as the text it writes. *)
Variable Hl7Json : parser.
Variable json_dump : list result -> str.
(** [str(e)] for the errors of the file operations. *)
Variable str_of_os_error : os_error -> str.

Definition str_of_raised (r : raised) : str :=
  match r with
  | os_raised e => str_of_os_error e
  | parser_raised e => exc_text e
  end.

(** [HL7Converter.process_file(input_file, output_file)]: the returned
    pair, or the exception, and the files afterwards. *)
Definition process_file (d : disk) (input_file output_file : str)
  : outcome (nat * nat) * disk :=
  match extract_hl7_messages_from_markdown d input_file with
  | Raise r => (Raise r, d)
  | Value messages =>
      match for_enumerate Hl7Json 0 messages empty_report with
      | Raises e => (Raise (parser_raised e), d)
      | Returns st =>
          match write_text d output_file (json_dump (results st)) with
          | (Raise r, d') => (Raise r, d')
          | (Value _, d') => (Value (successful st, failed st), d')
          end
      end
  end.

(** [str(n)] inside an f-string. *)
Definition decimal (n : nat) : str :=
  list_ascii_of_string (NilZero.string_of_uint (Nat.to_uint n)).

(** How a run of the script ends. *)
Inductive ending :=
| Finished
| Exit (code : nat)              (* sys.exit(code) *)
| Uncaught (r : raised).

Record run := mk_run {
  stdout : list str;             (* the printed lines *)
  disk_after : disk;
  ended : ending
}.

Inductive main_result :=
| Launch_gui                      (* no argument: the window is shown *)
| Ran (r : run).

(** [main()], given [sys.argv]. *)
Definition main (argv : list str) (d : disk) : main_result :=
  if 1 <? length argv then
    if length argv <? 3 then
      Ran {| stdout := [lit "Usage: " ++ default [] (argv !! 0) ++
                          lit " input_file output_file"];
             disk_after := d; ended := Exit 1 |}
    else
      let input_file := default [] (argv !! 1) in
      let output_file := default [] (argv !! 2) in
      if negb (exists_ d input_file) then
        Ran {| stdout := [lit "Error: Input file '" ++ input_file ++
                            lit "' not found."];
               disk_after := d; ended := Exit 1 |}
      else
        let processing := lit "Processing " ++ input_file ++ lit "..." in
        match process_file d input_file output_file with
        | (Raise r, d') =>
            Ran {| stdout := [processing]; disk_after := d';
                   ended := Uncaught r |}
        | (Value (successful, failed), d') =>
            Ran {| stdout :=
                     [processing;
                      lit "Conversion complete:";
                      lit "  - Successfully converted: " ++ decimal successful
                        ++ lit " messages";
                      lit "  - Failed conversions: " ++ decimal failed
                        ++ lit " messages";
                      lit "  - Output saved to: " ++ output_file];
                   disk_after := d'; ended := Finished |}
        end
  else Launch_gui.

(** The part of [HL7ConverterGUI] that [convert_file] reads and changes:
    the two chosen paths and the lines of the results area. *)
Record window := mk_window {
  input_file : str;
  output_file : str;
  results_text : list str
}.

(** A [QMessageBox] shown to the user: title and text. *)
Inductive dialog :=
| critical (title text : str)
| information (title text : str)
| warning (title text : str).

Record gui_run := mk_gui_run {
  window_after : window;
  dialogs : list dialog;
  gui_disk_after : disk;
  escaped : option raised        (* an exception that left [convert_file] *)
}.

(** [HL7ConverterGUI.convert_file(self)] *)
Definition convert_file (w : window) (d : disk) : gui_run :=
  if negb (exists_ d (input_file w)) then
    {| window_after := w;
       dialogs := [critical (lit "Error")
                     (lit "Input file '" ++ input_file w ++ lit "' not found.")];
       gui_disk_after := d; escaped := None |}
  else
    let shown := [lit "Processing " ++ input_file w ++ lit "..."] in
    match process_file d (input_file w) (output_file w) with
    | (Value (successful, failed), d') =>
        {| window_after :=
             {| input_file := input_file w; output_file := output_file w;
                results_text := shown ++
                  [nl :: lit "Conversion complete:";
                   lit "  - Successfully converted: " ++ decimal successful
                     ++ lit " messages";
                   lit "  - Failed conversions: " ++ decimal failed
                     ++ lit " messages";
                   lit "  - Output saved to: " ++ output_file w] |};
           dialogs :=
             [if 0 <? successful then
                information (lit "Success")
                  (lit "Conversion complete. " ++ decimal successful ++
                   lit " messages converted successfully.")
              else
                warning (lit "Warning")
                  (lit "No messages were converted successfully.")];
           gui_disk_after := d'; escaped := None |}
    | (Raise r, d') =>
        if is_Exception r then
          {| window_after :=
               {| input_file := input_file w; output_file := output_file w;
                  results_text := shown ++
                    [nl :: lit "Error during conversion: " ++ str_of_raised r] |};
             dialogs :=
               [critical (lit "Error")
                  (lit "An error occurred during conversion: " ++
                   str_of_raised r)];
             gui_disk_after := d'; escaped := None |}
        else
          {| window_after :=
               {| input_file := input_file w; output_file := output_file w;
                  results_text := shown |};
             dialogs := []; gui_disk_after := d'; escaped := Some r |}
    end.

End with_libraries.

End OnDisk.

(** The output path takes the whole text and can be read afterwards. *)
Definition accepts_write (d : OnDisk.disk) (path : str) : Prop :=
  OnDisk.on_write d path = OnDisk.writes_all /\
  OnDisk.files d !! path <> Some OnDisk.directory /\
  OnDisk.files d !! path <> Some OnDisk.no_read_permission.

(** A small file system for the examples: two documents and a directory;
    nothing can be created under a directory that is missing, and the
    writing under [/full/] stops after five characters.  A dump that only
    counts the entries, and a description of the errors by their path. *)
Definition demo_disk : OnDisk.disk :=
  {| OnDisk.files :=
       {[ lit "in.md" := OnDisk.text_file doc_good_bad;
          lit "empty.md" := OnDisk.text_file doc_plain;
          lit "docs" := OnDisk.directory ]};
     OnDisk.on_write := fun path =>
       if Re.startswith (lit "missing/") path
       then OnDisk.refuses (OnDisk.FileNotFoundError path)
       else if Re.startswith (lit "/full/") path
            then OnDisk.breaks 5 (OnDisk.OSError path)
            else OnDisk.writes_all |}.

Definition demo_dump : list result -> str := fun rs =>
  lit "entries: " ++ OnDisk.decimal (length rs).

Definition demo_os_text : OnDisk.os_error -> str := fun e =>
  match e with
  | OnDisk.FileNotFoundError path => lit "No such file or directory: " ++ path
  | OnDisk.IsADirectoryError path => lit "Is a directory: " ++ path
  | OnDisk.PermissionError path => lit "Permission denied: " ++ path
  | OnDisk.UnicodeDecodeError path => lit "invalid start byte"
  | OnDisk.OSError path => lit "No space left on device"
  end.

(** ** excel_to_contacts.py: the conversion of a sheet *)

Module Sheet.

Definition FIRST_NAMES : list str :=
  [ lit "Mohammed"; lit "Ahmed"; lit "Ali"; lit "Omar"; lit "Yusuf";
    lit "Ibrahim"; lit "Hassan"; lit "Hussein"; lit "Khalid"; lit "Mustafa";
    lit "Abdullah"; lit "Abdulrahman"; lit "Saad"; lit "Faisal"; lit "Tariq";
    lit "Zayd"; lit "Bilal"; lit "Hamza"; lit "Idris"; lit "Ismail";
    lit "Fatima"; lit "Aisha"; lit "Khadija"; lit "Zainab"; lit "Maryam";
    lit "Amina"; lit "Hafsa"; lit "Safiya"; lit "Ruqayyah"; lit "Sumayyah";
    lit "Layla"; lit "Noor"; lit "Hana"; lit "Sara"; lit "Yasmin";
    lit "Farah"; lit "Samira"; lit "Nadia"; lit "Iman"; lit "Salma" ].

Definition MIDDLE_NAMES : list str :=
  [ lit "Ali"; lit "Hassan"; lit "Hussein"; lit "Ahmed"; lit "Khan";
    lit "Mohammed"; lit "Abdul"; lit "Din"; lit "Uddin"; lit "Al";
    lit "Noor"; lit "Zahra"; lit "Banu"; lit "Begum"; lit "Sultana";
    lit "Khatun"; lit "Ibn"; lit "Bin"; lit "Bint"; lit "El"; lit "Al-" ].

Definition LAST_NAMES : list str :=
  [ lit "Khan"; lit "Hussain"; lit "Ahmed"; lit "Ali"; lit "Mohammed";
    lit "Syed"; lit "Sheikh"; lit "Malik"; lit "Mirza"; lit "Beg";
    lit "Qureshi"; lit "Siddiqui"; lit "Ansari"; lit "Farooqi"; lit "Usmani";
    lit "Chaudhry"; lit "Abbasi"; lit "Jafari"; lit "Kazmi"; lit "Rizvi";
    lit "Hassan"; lit "Rahman"; lit "Abdullah"; lit "Iqbal"; lit "Sharif";
    lit "Bakr"; lit "Omar"; lit "Osman"; lit "Zaman"; lit "Alvi" ].

(** One row of the output (a dict with these ten keys, in this order). *)
Record row := mk_row {
  name_prefix : str;
  first_name : str;
  middle_name : str;
  last_name : str;
  phonetic_first_name : str;
  phonetic_last_name : str;
  phone_1_value : str;
  organization_name : str;
  organization_title : str;
  website_1_value : str
}.

(** A [DataFrame] as the readers of [pandas] return it: the columns in
    order, each with its label and its cells (strings or integers). *)
Definition dataframe := list (str * list Contacts.phone_value).

Definition columns (df : dataframe) : list str := map fst df.

(** [df[name]] for a label that is among the columns. *)
Definition column_named (df : dataframe) (name : str)
  : list Contacts.phone_value :=
  match list_find (fun col => fst col = name) df with
  | Some (_, col) => snd col
  | None => []
  end.

(** [df.iloc[:, i]] for an index within bounds. *)
Definition column_at (df : dataframe) (i : nat) : list Contacts.phone_value :=
  match df !! i with
  | Some col => snd col
  | None => []
  end.

(** [phone_column_identifier]: a [str], an [int], or something else. *)
Inductive identifier :=
| by_name (name : str)
| by_index (i : Z)
| neither.

(** What the [pandas] calls raise, as far as the handlers tell apart:
    [FileNotFoundError], another class that derives from [Exception], or a
    class outside [Exception]. *)
Inductive error_kind :=
| kind_FileNotFoundError
| kind_Exception
| kind_BaseException.

Record lib_error := mk_lib_error {
  kind_of : error_kind;
  text_of : str                  (* str(e) *)
}.

Definition caught_by_Exception (e : lib_error) : bool :=
  match kind_of e with
  | kind_BaseException => false
  | _ => true
  end.

Inductive lib_outcome (A : Type) :=
| lib_ok (a : A)
| lib_raise (e : lib_error).
Arguments lib_ok {A} a.
Arguments lib_raise {A} e.

(** The printed lines, one constructor for each [print] of the function,
    with the values its f-string shows. *)
Inductive message :=
| read_as_excel (path : str)
| could_not_read_as_excel (path e_excel : str)
| read_as_csv (path : str)
| could_not_read_as_csv (path e_csv : str)
| please_ensure_valid_file
| column_not_found (name : str)
| available_columns (cols : list str)
| index_out_of_bounds (i : Z)
| file_has_columns (n : nat) (cols : list str)
| identifier_must_be_str_or_int
| no_data_processed
| saved_to (path : str)
| input_file_not_found (path : str)
| unexpected_error (e : str).

(** Where the body of the outer [try] stands after a step: it goes on with
    a value, it has executed [return], or an exception is on its way to the
    outer handlers. *)
Inductive flow (A : Type) :=
| continue (a : A)
| returned
| raising (e : lib_error).
Arguments continue {A} a.
Arguments returned {A}.
Arguments raising {A} e.

(** [str.lower()] on one character (code points below 256). *)
Definition lower_char (c : ascii) : ascii :=
  let n := nat_of_ascii c in
  if (65 <=? n) && (n <=? 90) then ascii_of_nat (n + 32)
  else if (192 <=? n) && (n <=? 222) && negb (n =? 215)
       then ascii_of_nat (n + 32)
       else c.

Definition lower (s : str) : str := map lower_char s.

(** [s.endswith(suffix)] *)
Definition endswith (suffix s : str) : bool :=
  Re.startswith (reverse suffix) (reverse s).

Section with_environment.
(** The random generator: [random._randbelow(n)] gives a number below [n]
    and leaves the generator in its next state. *)
Variable rng : Type.
Variable randbelow : nat -> rng -> nat * rng.
(** [pd.read_excel(path, sheet_name=0)], [pd.read_csv(path)] and
    [df_output.to_csv(path, index=False, encoding='utf-8')]. *)
Variable read_excel : str -> lib_outcome dataframe.
Variable read_csv : str -> lib_outcome dataframe.
Variable to_csv : list row -> str -> option lib_error.

(** [random.choice(seq)] is [seq[_randbelow(len(seq))]]. *)
Definition choice (seq : list str) (g : rng) : str * rng :=
  let '(k, g') := randbelow (length seq) g in
  (default [] (seq !! k), g').

Definition generate_random_name (name_list : list str) (g : rng)
  : str * rng :=
  match name_list with
  | [] => ([], g)
  | _ => choice name_list g
  end.

(** The body of [for phone_number in phone_numbers_series]. *)
Definition row_for (phone_number : Contacts.phone_value) (g : rng)
  : row * rng :=
  let cleaned_phone_number := Contacts.clean_phone_number phone_number in
  let '(first_name, g) := generate_random_name FIRST_NAMES g in
  let '(middle_name, g) := generate_random_name MIDDLE_NAMES g in
  let '(last_name, g) := generate_random_name LAST_NAMES g in
  let '(middle_name, g) :=
    if bool_decide (first_name = middle_name) &&
       bool_decide (middle_name ∈ FIRST_NAMES) then
      let temp_middle_names :=
        filter (fun m => m <> first_name) MIDDLE_NAMES in
      match temp_middle_names with
      | [] => ([], g)
      | _ => generate_random_name temp_middle_names g
      end
    else (middle_name, g) in
  ({| name_prefix := lit "QTS";
      first_name := first_name;
      middle_name := middle_name;
      last_name := last_name;
      phonetic_first_name := first_name;
      phonetic_last_name := last_name;
      phone_1_value := cleaned_phone_number;
      organization_name := lit "Quadrate Tech Solutions";
      organization_title := lit "QTS";
      website_1_value := lit "https://quadrate.lk" |}, g).

Fixpoint rows_for (phone_numbers_series : list Contacts.phone_value)
    (g : rng) : list row * rng :=
  match phone_numbers_series with
  | [] => ([], g)
  | phone_number :: rest =>
      let '(r, g) := row_for phone_number g in
      let '(rs, g) := rows_for rest g in
      (r :: rs, g)
  end.

(** The reading of the input, with the fall back on [read_csv]. *)
Definition read_input (input_file_path : str)
  : list message * flow dataframe :=
  match read_excel input_file_path with
  | lib_ok df => ([read_as_excel input_file_path], continue df)
  | lib_raise e_excel =>
      if caught_by_Exception e_excel then
        let printed :=
          [could_not_read_as_excel input_file_path (text_of e_excel)] in
        if endswith (lit ".csv") (lower input_file_path) then
          match read_csv input_file_path with
          | lib_ok df =>
              (printed ++ [read_as_csv input_file_path], continue df)
          | lib_raise e_csv =>
              if caught_by_Exception e_csv then
                (printed ++
                   [could_not_read_as_csv input_file_path (text_of e_csv)],
                 returned)
              else (printed, raising e_csv)
          end
        else (printed ++ [please_ensure_valid_file], returned)
      else ([], raising e_excel)
  end.

(** The choice of the column of phone numbers. *)
Definition select_phone_numbers (df_input : dataframe)
    (phone_column_identifier : identifier)
  : list message * flow (list Contacts.phone_value) :=
  match phone_column_identifier with
  | by_name name =>
      if bool_decide (name ∉ columns df_input) then
        ([column_not_found name; available_columns (columns df_input)],
         returned)
      else ([], continue (column_named df_input name))
  | by_index i =>
      if (Z.of_nat (length (columns df_input)) <=? i)%Z || (i <? 0)%Z then
        ([index_out_of_bounds i;
          file_has_columns (length (columns df_input)) (columns df_input)],
         returned)
      else ([], continue (column_at df_input (Z.to_nat i)))
  | neither => ([identifier_must_be_str_or_int], returned)
  end.

(** What a call leaves behind: the printed lines, the rows that [to_csv]
    saved, the exception that left the function, and the generator. *)
Record conversion := mk_conversion {
  printed : list message;
  saved : option (list row);
  escaped : option lib_error;
  generator : rng
}.

(** The two handlers of the outer [try]. *)
Definition handle (input_file_path : str) (so_far : list message)
    (e : lib_error) (g : rng) : conversion :=
  match kind_of e with
  | kind_FileNotFoundError =>
      {| printed := so_far ++ [input_file_not_found input_file_path];
         saved := None; escaped := None; generator := g |}
  | kind_Exception =>
      {| printed := so_far ++ [unexpected_error (text_of e)];
         saved := None; escaped := None; generator := g |}
  | kind_BaseException =>
      {| printed := so_far; saved := None; escaped := Some e;
         generator := g |}
  end.

Definition convert_excel_to_custom_csv (input_file_path : str)
    (phone_column_identifier : identifier) (output_csv_path : str)
    (g : rng) : conversion :=
  let '(printed_1, read) := read_input input_file_path in
  match read with
  | raising e => handle input_file_path printed_1 e g
  | returned =>
      {| printed := printed_1; saved := None; escaped := None;
         generator := g |}
  | continue df_input =>
      let '(printed_2, selected) :=
        select_phone_numbers df_input phone_column_identifier in
      match selected with
      | raising e => handle input_file_path (printed_1 ++ printed_2) e g
      | returned =>
          {| printed := printed_1 ++ printed_2; saved := None;
             escaped := None; generator := g |}
      | continue phone_numbers_series =>
          let '(output_data_rows, g') := rows_for phone_numbers_series g in
          let printed_3 :=
            printed_1 ++ printed_2 ++
            match output_data_rows with
            | [] => [no_data_processed]
            | _ => []
            end in
          match to_csv output_data_rows output_csv_path with
          | Some e => handle input_file_path printed_3 e g'
          | None =>
              {| printed := printed_3 ++ [saved_to output_csv_path];
                 saved := Some output_data_rows; escaped := None;
                 generator := g' |}
          end
      end
  end.

End with_environment.

Arguments printed {rng} c.
Arguments saved {rng} c.
Arguments escaped {rng} c.
Arguments generator {rng} c.

End Sheet.

(** An environment for the examples: a generator that counts, a workbook
    with one sheet, and a writer that accepts every path. *)
Definition demo_randbelow : nat -> nat -> nat * nat :=
  fun n g => (g mod n, S g).

Definition demo_sheet : Sheet.dataframe :=
  [ (lit "Name", [Contacts.phone_str (lit "A"); Contacts.phone_str (lit "B")]);
    (lit "Phone Number",
     [Contacts.phone_str (lit "+7999745-12-15"); Contacts.phone_int 1234567890]) ].

Definition demo_read_excel : str -> Sheet.lib_outcome Sheet.dataframe :=
  fun path =>
    if Sheet.endswith (lit ".xlsx") path then Sheet.lib_ok demo_sheet
    else Sheet.lib_raise
           (Sheet.mk_lib_error Sheet.kind_FileNotFoundError
              (lit "No such file or directory")).

Definition demo_read_csv : str -> Sheet.lib_outcome Sheet.dataframe :=
  fun _ => Sheet.lib_raise
             (Sheet.mk_lib_error Sheet.kind_Exception (lit "No columns to parse"))
.

Definition demo_to_csv : list Sheet.row -> str -> option Sheet.lib_error :=
  fun _ _ => None.

(** The cells that [select_phone_numbers] picks for an identifier that
    names a column of the sheet. *)
Definition picked (df : Sheet.dataframe) (ident : Sheet.identifier)
    (cells : list Contacts.phone_value) : Prop :=
  match ident with
  | Sheet.by_name name =>
      name ∈ Sheet.columns df /\ cells = Sheet.column_named df name
  | Sheet.by_index i =>
      (0 <= i < Z.of_nat (length df))%Z /\
      cells = Sheet.column_at df (Z.to_nat i)
  | Sheet.neither => False
  end.

(** What the row built for a cell holds: the cleaned number of the cell,
    names drawn from the three lists, a middle name that differs from the
    first name, and the two phonetic names equal to the names. *)
Definition row_ok (phone_number : Contacts.phone_value) (r : Sheet.row) : Prop :=
  Sheet.phone_1_value r = Contacts.clean_phone_number phone_number /\
  Sheet.first_name r ∈ Sheet.FIRST_NAMES /\
  Sheet.middle_name r ∈ Sheet.MIDDLE_NAMES /\
  Sheet.last_name r ∈ Sheet.LAST_NAMES /\
  Sheet.first_name r <> Sheet.middle_name r /\
  Sheet.phonetic_first_name r = Sheet.first_name r /\
  Sheet.phonetic_last_name r = Sheet.last_name r.



(** ** test_hl7_converter.py *)

Module HL7Test.

Definition dq : ascii := ascii_of_nat 34.

(** The raw string [sample_message]. *)
Definition sample_message : str :=
  lit "MSH|^~\&|Millennium|HMC|RHAPSODY_ADT|HMC|20250601083201||ADT" ++
  lit "^A31|Q8818940207T16062243286|P|2.3||||||8859/1" ++
  [nl] ++
  lit "EVN|A31|20250601083201|||MCHANDA^Chanda^Mahanteshwar^^^Mr.^^" ++
  lit "^CCV Username^Personnel^^^USERID^" ++
  [dq; dq] ++
  [nl] ++
  lit "PID|1||HC09193054^^^MRN^MR^" ++
  [dq; dq] ++
  lit "||QAT^HOMECARETEST^^^^^official||19800508|male||National|^^^" ++
  [dq; dq] ++
  lit "^^Qatar^Home^^" ++
  [dq; dq] ++
  lit "~^^^" ++
  [dq; dq] ++
  lit "^^" ++
  [dq; dq] ++
  lit "^Birth^^" ++
  [dq; dq] ++
  lit "~mahanteshportal11@gmail.com^^^" ++
  [dq; dq] ++
  lit "^^" ++
  [dq; dq] ++
  lit "^E-mail^^" ++
  [dq; dq] ++
  lit "||333333^Pager personal^" ++
  [dq; dq] ++
  lit "~||Arabic|Married|" ++
  [dq; dq] ++
  lit "||28675678654|||||||||Qatari" ++
  [nl] ++
  lit "PV1||" ++
  [nl] ++
  lit "OBX|1|CE|REGFACILITY||HG Hamad||||||" ++
  [nl] ++
  lit "OBX|2|CE|COUNTRY_RES||Qatar||||||" ++
  [nl] ++
  lit "OBX|3|DT|QATAR_ID_EXP||20310531||||||" ++
  [nl] ++
  lit "OBX|4|CE|PHCC_GEN_CON||Yes||||||" ++
  [nl] ++
  lit "OBX|5|CE|PREF_LANGUAG||Arabic||||||".

Section with_libraries.
Variable Hl7Json : parser.
(** [json.dumps(json_data, indent=2)] *)
Variable json_dumps : pyval -> str.

(** [main()]: the printed lines. *)
Definition main : completion (list str) :=
  '(json_data, error) ← convert_hl7_to_json Hl7Json sample_message;
  match error with
  | Some (c :: text) =>
      Returns [lit "Error: " ++ c :: text]
  | _ =>
      Returns [nl :: lit "Final JSON output:"; json_dumps json_data]
  end.

End with_libraries.

End HL7Test.

(** ** main.py: the file selection of the window *)

Module Selection.

(** The part of [HL7ConverterGUI] behind the two Browse buttons: the
    chosen paths, the two labels that show them, and whether the Convert
    button is enabled. *)
Record state := mk_state {
  input_file : str;
  output_file : str;
  input_path : str;              (* the text of the label *)
  output_path : str;
  convert_enabled : bool
}.

(** After [__init__] and [init_ui]. *)
Definition initial : state :=
  {| input_file := []; output_file := [];
     input_path := lit "No file selected";
     output_path := lit "No file selected";
     convert_enabled := false |}.

Definition non_empty (s : str) : bool :=
  match s with [] => false | _ => true end.

(** [setEnabled(bool(self.input_file and self.output_file))] *)
Definition update_convert_button (st : state) : state :=
  {| input_file := input_file st; output_file := output_file st;
     input_path := input_path st; output_path := output_path st;
     convert_enabled :=
       non_empty (input_file st) && non_empty (output_file st) |}.

(** [select_input_file], given the path the file dialog returned (empty
    when the dialog was cancelled). *)
Definition select_input_file (file_path : str) (st : state) : state :=
  if non_empty file_path then
    update_convert_button
      {| input_file := file_path; output_file := output_file st;
         input_path := file_path; output_path := output_path st;
         convert_enabled := convert_enabled st |}
  else st.

Definition select_output_file (file_path : str) (st : state) : state :=
  if non_empty file_path then
    update_convert_button
      {| input_file := input_file st; output_file := file_path;
         input_path := input_path st; output_path := file_path;
         convert_enabled := convert_enabled st |}
  else st.

(** A click on one of the two Browse buttons, with the answer of the
    dialog. *)
Inductive click :=
| browse_input (file_path : str)
| browse_output (file_path : str).

Definition handle (st : state) (c : click) : state :=
  match c with
  | browse_input file_path => select_input_file file_path st
  | browse_output file_path => select_output_file file_path st
  end.

Definition after (clicks : list click) : state :=
  foldl handle initial clicks.

End Selection.

(** What holds of the window after every click: the Convert button is
    enabled exactly when both paths are chosen, and each label shows the
    chosen path, or that none is selected. *)
Definition selection_invariant (st : Selection.state) : Prop :=
  Selection.convert_enabled st =
    Selection.non_empty (Selection.input_file st) &&
    Selection.non_empty (Selection.output_file st) /\
  Selection.input_path st =
    (if Selection.non_empty (Selection.input_file st)
     then Selection.input_file st else lit "No file selected") /\
  Selection.output_path st =
    (if Selection.non_empty (Selection.output_file st)
     then Selection.output_file st else lit "No file selected").

(** ** Facts about the regular expression *)

Section re_facts.
Import Re.

Lemma startswith_app p rest : startswith p (p ++ rest) = true.
Proof.
  induction p as [|a p IH]; simpl; [done|].
  by rewrite Ascii.eqb_refl.
Qed.

Lemma startswith_inv p s :
  startswith p s = true -> s = p ++ drop (length p) s.
Proof.
  revert s. induction p as [|a p IH]; intros [|b s]; simpl; try done.
  intros [Hab Hps]%andb_prop. apply Ascii.eqb_eq in Hab as ->.
  f_equal. by apply IH.
Qed.

Lemma lazy_until_Some p s g rest :
  lazy_until p s = Some (g, rest) -> s = g ++ p ++ rest.
Proof.
  revert g rest. induction s as [|c s IH]; intros g rest; simpl.
  - destruct (startswith p []) eqn:Hp; [|done].
    intros [= <- <-]. by apply startswith_inv in Hp.
  - destruct (startswith p (c :: s)) eqn:Hp.
    + intros [= <- <-]. by apply startswith_inv in Hp.
    + destruct (lazy_until p s) as [[g' rest']|] eqn:Hl; [|done].
      intros [= <- <-]. simpl. f_equal. by apply IH.
Qed.

(** The group is the shortest one: [p] does not match earlier. *)
Lemma lazy_until_shortest p s g rest :
  lazy_until p s = Some (g, rest) ->
  forall g' rest', s = g' ++ p ++ rest' -> length g <= length g'.
Proof.
  revert g rest. induction s as [|c s IH]; intros g rest; simpl.
  - destruct (startswith p []); [|done]. intros [= <- <-] ? ? _. simpl. lia.
  - destruct (startswith p (c :: s)) eqn:Hp.
    + intros [= <- <-] ? ? _. simpl. lia.
    + destruct (lazy_until p s) as [[g1 rest1]|] eqn:Hl; [|done].
      intros [= <- <-] g' rest' Hs. destruct g' as [|c' g'].
      * simpl in Hs. rewrite Hs, startswith_app in Hp. done.
      * simpl in Hs. injection Hs as -> Hs. simpl. apply le_n_S.
        eapply IH; [reflexivity | exact Hs].
Qed.

Lemma lazy_until_unfold p s :
  lazy_until p s =
    if startswith p s then Some ([], drop (length p) s)
    else match s with
         | [] => None
         | c :: s' =>
             match lazy_until p s' with
             | Some (g, rest) => Some (c :: g, rest)
             | None => None
             end
         end.
Proof. by destruct s. Qed.

Lemma lazy_until_complete p g' rest' :
  is_Some (lazy_until p (g' ++ p ++ rest')).
Proof.
  induction g' as [|c g' IH]; rewrite lazy_until_unfold.
  - simpl. by rewrite startswith_app.
  - destruct (startswith p _); [done|]. simpl.
    destruct IH as [[g rest] ->]. done.
Qed.

Lemma match_at_nil : match_at [] = None.
Proof. done. Qed.

Lemma match_at_Some s g n :
  match_at s = Some (g, n) ->
  n = length fence_open + length g + length fence_close /\
  exists post, s = fence_open ++ g ++ fence_close ++ post /\
    forall g' post', g ++ fence_close ++ post = g' ++ fence_close ++ post' ->
      length g <= length g'.
Proof.
  unfold match_at. destruct (startswith fence_open s) eqn:Ho; [|done].
  destruct (lazy_until _ _) as [[g0 post]|] eqn:Hl; [|done].
  intros [= <- <-]. split; [done|]. exists post.
  apply startswith_inv in Ho. pose proof (lazy_until_Some _ _ _ _ Hl) as Hd.
  split; [by rewrite Ho, Hd|].
  intros g' post' Heq. eapply lazy_until_shortest; [exact Hl|].
  by rewrite Hd.
Qed.

Lemma match_at_complete g post :
  is_Some (match_at (fence_open ++ g ++ fence_close ++ post)).
Proof.
  unfold match_at. rewrite startswith_app, drop_app_length.
  destruct (lazy_until_complete fence_close g post) as [[g0 r] ->]. done.
Qed.

Lemma scan_skip k s : scan k s = scan 0 (drop k s).
Proof.
  revert k. induction s as [|c s IH]; intros [|k]; try done.
  simpl. apply IH.
Qed.

Lemma scan_match s g n :
  match_at s = Some (g, n) -> scan 0 s = g :: scan 0 (drop n s).
Proof.
  intros Hm. destruct s as [|c s]; [done|]. simpl. rewrite Hm.
  apply match_at_Some in Hm as [-> _]. simpl. by rewrite scan_skip.
Qed.

Lemma scan_no_match c s :
  match_at (c :: s) = None -> scan 0 (c :: s) = scan 0 s.
Proof. intros Hm. simpl. by rewrite Hm. Qed.

(** [findall] in its usual form: after a match the search resumes where the
    match ended, otherwise one character further. *)
Lemma findall_unfold s :
  findall s =
    match match_at s with
    | Some (g, n) => g :: findall (drop n s)
    | None => match s with [] => [] | _ :: s' => findall s' end
    end.
Proof.
  unfold findall. destruct (match_at s) as [[g n]|] eqn:Hm.
  - by apply scan_match.
  - destruct s as [|c s]; [done|]. by apply scan_no_match.
Qed.

(** Every element of the result sits between an opening and a closing
    literal of the document, and no closing literal starts earlier. *)
Lemma scan_elem g s : forall k,
  g ∈ scan k s ->
  exists pre post,
    s = pre ++ fence_open ++ g ++ fence_close ++ post /\
    forall g' post', g ++ fence_close ++ post = g' ++ fence_close ++ post' ->
      length g <= length g'.
Proof.
  induction s as [|c s IH]; intros k; simpl; [by intros ?%elem_of_nil|].
  assert (forall k', g ∈ scan k' s ->
    exists pre post,
      c :: s = pre ++ fence_open ++ g ++ fence_close ++ post /\
      forall g' post', g ++ fence_close ++ post = g' ++ fence_close ++ post' ->
        length g <= length g') as Htail.
  { intros k' (pre & post & -> & Hmin)%IH. by exists (c :: pre), post. }
  destruct k as [|k]; [|by apply Htail].
  destruct (match_at (c :: s)) as [[g0 n]|] eqn:Hm; [|by apply Htail].
  intros [->|Hin]%elem_of_cons; [|by eapply Htail].
  apply match_at_Some in Hm as (_ & post & Hs & Hmin).
  by exists [], post.
Qed.

Lemma scan_complete pre g post :
  scan 0 (pre ++ fence_open ++ g ++ fence_close ++ post) <> [].
Proof.
  induction pre as [|c pre IH].
  - destruct (match_at_complete g post) as [[g0 n] Hm].
    rewrite app_nil_l. by rewrite (scan_match _ _ _ Hm).
  - rewrite <- app_comm_cons. destruct (match_at (c :: pre ++ fence_open ++ g ++ fence_close ++ post))
      as [[g0 n]|] eqn:Hm.
    + by rewrite (scan_match _ _ _ Hm).
    + by rewrite (scan_no_match _ _ Hm).
Qed.

Lemma startswith_close_app c A rest :
  startswith fence_close (c :: A) = false ->
  startswith fence_close (c :: A ++ fence_close ++ rest) = false.
Proof.
  destruct A as [|c2 [|c3 [|c4 A]]]; simpl; try done;
    repeat (case Ascii.eqb_spec; simpl; try done; intros; subst).
Qed.

Lemma lazy_until_block A rest :
  occurs fence_close A = false ->
  lazy_until fence_close (A ++ fence_close ++ rest) = Some (A, rest).
Proof.
  induction A as [|c A IH]; [done|].
  cbn [occurs]. intros [Hc HA]%orb_false_elim.
  cbn [app lazy_until]. rewrite (startswith_close_app _ _ _ Hc).
  by rewrite (IH HA).
Qed.

Lemma scan_block A rest :
  occurs fence_close A = false ->
  scan 0 (fence_open ++ A ++ fence_close ++ rest) = A :: scan 0 rest.
Proof.
  intros HA.
  assert (match_at (fence_open ++ A ++ fence_close ++ rest) =
          Some (A, length fence_open + length A + length fence_close)) as Hm.
  { unfold match_at. rewrite startswith_app, drop_app_length.
    by rewrite (lazy_until_block _ _ HA). }
  rewrite (scan_match _ _ _ Hm). f_equal. f_equal.
  rewrite !app_assoc, <- (app_assoc _ A), <- !app_assoc.
  rewrite (app_assoc fence_open), (app_assoc (fence_open ++ A)).
  rewrite drop_app_length'; [done|]. rewrite !length_app. done.
Qed.

Lemma match_at_first c s : c <> bt -> match_at (c :: s) = None.
Proof.
  intros Hc. unfold match_at, fence_open. cbn [startswith].
  destruct (Ascii.eqb_spec bt c) as [Heq|Hne]; [by subst|done].
Qed.

(** Text without a backquote holds no match and is passed over. *)
Lemma scan_plain_prefix pre s :
  Forall (fun c => c <> bt) pre -> scan 0 (pre ++ s) = scan 0 s.
Proof.
  induction 1 as [|c pre Hc _ IH]; [done|].
  rewrite <- app_comm_cons.
  by rewrite (scan_no_match _ _ (match_at_first _ _ Hc)).
Qed.

Lemma startswith_open_newline s :
  startswith fence_open s = true -> nl ∈ s.
Proof.
  intros ->%startswith_inv. unfold fence_open. simpl.
  rewrite !elem_of_cons. auto.
Qed.

(** Without a newline nothing matches. *)
Lemma scan_no_newline s : forall k, nl ∉ s -> scan k s = [].
Proof.
  induction s as [|c s IH]; intros k Hnl; [done|].
  assert (nl ∉ s) as Hs by (by apply not_elem_of_cons in Hnl as [_ ?]).
  destruct k as [|k]; simpl; [|by apply IH].
  unfold match_at.
  destruct (startswith fence_open (c :: s)) eqn:Ho; [|by apply IH].
  by apply startswith_open_newline in Ho.
Qed.

End re_facts.

(** ** Facts about the conversion loop *)

Section loop_facts.
Variable Hl7Json : parser.

Lemma convert_returns m v :
  Hl7Json m = Returns v -> convert_hl7_to_json Hl7Json m = Returns (v, None).
Proof. unfold convert_hl7_to_json. by intros ->. Qed.

Lemma convert_caught m e :
  Hl7Json m = Raises e -> derives_from_Exception (exc_type e) = true ->
  convert_hl7_to_json Hl7Json m = Returns (PNone, Some (exc_text e)).
Proof. unfold convert_hl7_to_json. intros -> He. simpl. by rewrite He. Qed.

Lemma convert_propagates m e :
  Hl7Json m = Raises e -> derives_from_Exception (exc_type e) = false ->
  convert_hl7_to_json Hl7Json m = Raises e.
Proof. unfold convert_hl7_to_json. intros -> He. simpl. by rewrite He. Qed.

Lemma loop_body_recoverable st i m :
  recoverable (Hl7Json m) = true ->
  loop_body Hl7Json st i m =
    Returns {| successful := successful st +
                 (if is_success (entry_for Hl7Json i m) then 1 else 0);
               failed := failed st +
                 (if is_failed (entry_for Hl7Json i m) then 1 else 0);
               results := results st ++ [entry_for Hl7Json i m] |}.
Proof.
  unfold loop_body, entry_for, recoverable.
  destruct (Hl7Json m) as [v|e] eqn:Hm; intros Hr.
  - rewrite (convert_returns _ _ Hm). simpl.
    destruct (truthy v); simpl; do 2 f_equal; lia.
  - rewrite (convert_caught _ _ Hm Hr). simpl. do 2 f_equal; lia.
Qed.

Lemma loop_body_fatal st i m e :
  Hl7Json m = Raises e -> derives_from_Exception (exc_type e) = false ->
  loop_body Hl7Json st i m = Raises e.
Proof.
  intros Hm He. unfold loop_body. by rewrite (convert_propagates _ _ Hm He).
Qed.

Lemma for_enumerate_recoverable messages : forall i st,
  Forall (fun m => recoverable (Hl7Json m) = true) messages ->
  for_enumerate Hl7Json i messages st =
    Returns {| successful := successful st +
                 count is_success (entries_from Hl7Json i messages);
               failed := failed st +
                 count is_failed (entries_from Hl7Json i messages);
               results := results st ++ entries_from Hl7Json i messages |}.
Proof.
  induction messages as [|m rest IH]; intros i st Hall; simpl.
  - rewrite app_nil_r, !Nat.add_0_r. by destruct st.
  - inversion Hall as [|? ? Hm Hrest]; subst.
    rewrite (loop_body_recoverable _ _ _ Hm). simpl.
    rewrite (IH _ _ Hrest). simpl.
    rewrite <- app_assoc. simpl. do 2 f_equal; lia.
Qed.

Lemma for_enumerate_fatal pre m post e : forall i st,
  Forall (fun m => recoverable (Hl7Json m) = true) pre ->
  Hl7Json m = Raises e -> derives_from_Exception (exc_type e) = false ->
  for_enumerate Hl7Json i (pre ++ m :: post) st = Raises e.
Proof.
  induction pre as [|p pre IH]; intros i st Hall Hm He; simpl.
  - by rewrite (loop_body_fatal _ _ _ _ Hm He).
  - inversion Hall as [|? ? Hp Hpre]; subst.
    rewrite (loop_body_recoverable _ _ _ Hp). simpl. by apply IH.
Qed.

Lemma for_enumerate_returns_inv messages : forall i st r,
  for_enumerate Hl7Json i messages st = Returns r ->
  Forall (fun m => recoverable (Hl7Json m) = true) messages.
Proof.
  induction messages as [|m rest IH]; intros i st r; simpl; [by constructor|].
  destruct (recoverable (Hl7Json m)) eqn:Hm.
  - rewrite (loop_body_recoverable _ _ _ Hm). simpl. intros Hr.
    constructor; [done|]. by eapply IH.
  - unfold recoverable in Hm. destruct (Hl7Json m) as [v|e] eqn:Hp; [done|].
    by rewrite (loop_body_fatal _ _ _ _ Hp Hm).
Qed.

Lemma entries_from_length messages : forall i,
  length (entries_from Hl7Json i messages) = length messages.
Proof. induction messages as [|m rest IH]; intros i; simpl; [done|]. by rewrite IH. Qed.

Lemma entries_from_lookup messages : forall i j m,
  messages !! j = Some m ->
  entries_from Hl7Json i messages !! j = Some (entry_for Hl7Json (i + j) m).
Proof.
  induction messages as [|m0 rest IH]; intros i [|j] m; simpl; try done.
  - intros [= ->]. by rewrite Nat.add_0_r.
  - intros Hj. rewrite (IH _ _ _ Hj). do 2 f_equal. lia.
Qed.

Lemma entries_from_indices messages : forall i,
  map message_index (entries_from Hl7Json i messages) =
    seq (i + 1) (length messages).
Proof.
  induction messages as [|m rest IH]; intros i; simpl; [done|].
  f_equal.
  - unfold entry_for. destruct (Hl7Json m) as [v|e]; [destruct (truthy v)|]; done.
  - rewrite IH. f_equal.
Qed.

Lemma count_success_failed (rs : list result) :
  count is_success rs + count is_failed rs = length rs.
Proof. induction rs as [|[]]; simpl; lia. Qed.


End loop_facts.

Section report_facts.
Variable Hl7Json : parser.

Lemma process_file_recoverable content :
  Forall (fun m => recoverable (Hl7Json m) = true)
    (extract_hl7_messages_from_markdown content) ->
  process_file Hl7Json content =
    Returns
      {| successful := count is_success
           (entries_from Hl7Json 0 (extract_hl7_messages_from_markdown content));
         failed := count is_failed
           (entries_from Hl7Json 0 (extract_hl7_messages_from_markdown content));
         results :=
           entries_from Hl7Json 0 (extract_hl7_messages_from_markdown content) |}.
Proof.
  intros Hall. unfold process_file.
  by rewrite (for_enumerate_recoverable _ _ _ _ Hall).
Qed.

Lemma process_file_returns_inv content r :
  process_file Hl7Json content = Returns r ->
  Forall (fun m => recoverable (Hl7Json m) = true)
    (extract_hl7_messages_from_markdown content).
Proof. apply for_enumerate_returns_inv. Qed.

Lemma for_enumerate_raises_inv messages : forall i st e,
  for_enumerate Hl7Json i messages st = Raises e ->
  exists pre m post,
    messages = pre ++ m :: post /\
    Forall (fun m => recoverable (Hl7Json m) = true) pre /\
    Hl7Json m = Raises e /\
    derives_from_Exception (exc_type e) = false.
Proof.
  induction messages as [|m rest IH]; intros i st e; simpl; [done|].
  destruct (recoverable (Hl7Json m)) eqn:Hm.
  - rewrite (loop_body_recoverable _ _ _ _ Hm). simpl.
    intros (pre & m' & post & -> & Hpre & Hm' & He)%IH.
    exists (m :: pre), m', post. repeat split; try done. by constructor.
  - unfold recoverable in Hm. destruct (Hl7Json m) as [v|e'] eqn:Hp; [done|].
    rewrite (loop_body_fatal _ _ _ _ _ Hp Hm). intros [= ->].
    exists [], m, rest. repeat split; try done.
Qed.

Lemma entry_for_malformed i m :
  malformed Hl7Json m -> is_failed (entry_for Hl7Json i m) = true.
Proof. intros (e & Hm & _). unfold entry_for. by rewrite Hm. Qed.

Lemma entry_for_well_formed i m :
  well_formed Hl7Json m -> is_success (entry_for Hl7Json i m) = true.
Proof. intros (v & Hm & Hv). unfold entry_for. by rewrite Hm, Hv. Qed.

Lemma is_failed_negb r : is_failed r = negb (is_success r).
Proof. by destruct r. Qed.

Lemma count_all_well_formed messages : forall i,
  Forall (well_formed Hl7Json) messages ->
  count is_failed (entries_from Hl7Json i messages) = 0 /\
  count is_success (entries_from Hl7Json i messages) = length messages.
Proof.
  induction messages as [|m rest IH]; intros i Hall; simpl; [done|].
  inversion Hall as [|? ? Hm Hrest]; subst.
  destruct (IH (S i) Hrest) as [-> ->].
  rewrite is_failed_negb, (entry_for_well_formed _ _ Hm). done.
Qed.

Lemma count_one_malformed messages : forall i k bad,
  messages !! k = Some bad -> malformed Hl7Json bad ->
  (forall j m, j <> k -> messages !! j = Some m -> well_formed Hl7Json m) ->
  count is_failed (entries_from Hl7Json i messages) = 1 /\
  count is_success (entries_from Hl7Json i messages) = length messages - 1.
Proof.
  induction messages as [|m rest IH]; intros i k bad Hk Hbad Hothers; [done|].
  destruct k as [|k]; simpl in Hk.
  - injection Hk as ->. simpl.
    assert (Forall (well_formed Hl7Json) rest) as Hrest.
    { apply Forall_lookup. intros j x Hj. by apply (Hothers (S j)). }
    destruct (count_all_well_formed rest (S i) Hrest) as [-> ->].
    pose proof (entry_for_malformed i _ Hbad) as Hf.
    rewrite Hf. rewrite is_failed_negb in Hf.
    destruct (is_success (entry_for Hl7Json i bad)); [done|]. simpl. lia.
  - simpl.
    destruct (IH (S i) k bad Hk Hbad) as [-> ->].
    { intros j x Hj. apply (Hothers (S j)). lia. }
    assert (well_formed Hl7Json m) as Hm by (by apply (Hothers 0)).
    rewrite is_failed_negb, (entry_for_well_formed i _ Hm). simpl.
    apply lookup_lt_Some in Hk. lia.
Qed.

End report_facts.

(** ** The claims *)

(** C1 (failure isolation).  When every candidate's parse either returns or
    fails with an error that [except Exception] catches, [process_file]
    returns a report with exactly one entry per extracted candidate, the
    entry at position [i] being the one computed from candidate [i] alone:
    a failure at one position does not stop the later candidates from being
    parsed.  In particular, when one candidate is malformed (the parser
    signals an error for it) and every other one is well-formed (the parser
    returns its non-empty structured value), the report holds exactly one
    failed entry and [N - 1] successful ones. *)
Theorem failure_isolation (Hl7Json : parser) (content : str) :
  Forall (fun m => recoverable (Hl7Json m) = true)
    (extract_hl7_messages_from_markdown content) ->
  exists r,
    process_file Hl7Json content = Returns r /\
    length (results r) = length (extract_hl7_messages_from_markdown content) /\
    (forall i m,
       extract_hl7_messages_from_markdown content !! i = Some m ->
       exists json_data error,
         convert_hl7_to_json Hl7Json m = Returns (json_data, error) /\
         results r !! i =
           Some (if truthy json_data then success_result (i + 1) json_data
                 else failed_result (i + 1) error m)) /\
    (forall k bad,
       extract_hl7_messages_from_markdown content !! k = Some bad ->
       malformed Hl7Json bad ->
       (forall j m, j <> k ->
          extract_hl7_messages_from_markdown content !! j = Some m ->
          well_formed Hl7Json m) ->
       count is_failed (results r) = 1 /\
       count is_success (results r) =
         length (extract_hl7_messages_from_markdown content) - 1 /\
       failed r = 1 /\
       successful r = length (extract_hl7_messages_from_markdown content) - 1).
Proof.
  intros Hall. eexists. split; [by apply process_file_recoverable|]. simpl.
  split; [apply entries_from_length|]. split.
  - intros i m Hi. rewrite (entries_from_lookup _ _ 0 i m Hi). simpl.
    pose proof (proj1 (Forall_lookup _ _) Hall i m Hi) as Hm. simpl in Hm.
    unfold entry_for. destruct (Hl7Json m) as [v|e] eqn:Hp.
    + exists v, None. by rewrite (convert_returns _ _ _ Hp).
    + exists PNone, (Some (exc_text e)). by rewrite (convert_caught _ _ _ Hp Hm).
  - intros k bad Hk Hbad Hothers.
    destruct (count_one_malformed Hl7Json _ 0 k bad Hk Hbad Hothers) as [-> ->].
    done.
Qed.

Lemma failure_isolation_witness :
  exists r,
    process_file demo_parser doc_good_bad_good = Returns r /\
    length (results r) = 3 /\
    count is_failed (results r) = 1 /\ count is_success (results r) = 2.
Proof.
  destruct (failure_isolation demo_parser doc_good_bad_good)
    as (r & Hr & Hlen & _ & Hone).
  { vm_compute. repeat constructor. }
  exists r. split; [exact Hr|]. split; [exact Hlen|].
  destruct (Hone 1 (lit "oops")) as (Hf & Hs & _).
  - reflexivity.
  - eexists. split; reflexivity.
  - intros [|[|[|j]]] m Hj; try done; intros [= <-]; eexists; split; reflexivity.
  - split; [exact Hf | exact Hs].
Defined.

(** C2, as amended.  [process_file] raises [e] exactly when [e] is what the
    parser raises on the first candidate for which it raises an exception
    that does not derive from [Exception] ([KeyboardInterrupt],
    [SystemExit], [GeneratorExit]); processing halts there.  An exception
    that derives from [Exception], [MemoryError] and [ImportError] among
    them, is never propagated. *)
Theorem only_non_Exception_errors_propagate (Hl7Json : parser)
    (content : str) (e : py_exception) :
  process_file Hl7Json content = Raises e <->
  exists pre m post,
    extract_hl7_messages_from_markdown content = pre ++ m :: post /\
    Forall (fun m => recoverable (Hl7Json m) = true) pre /\
    Hl7Json m = Raises e /\
    derives_from_Exception (exc_type e) = false.
Proof.
  unfold process_file. split.
  - apply for_enumerate_raises_inv.
  - intros (pre & m & post & -> & Hpre & Hm & He).
    by apply for_enumerate_fatal.
Qed.

Lemma only_non_Exception_errors_propagate_witness :
  process_file interrupted_parser doc_good_bad =
    Raises (mk_exception KeyboardInterrupt []).
Proof.
  apply (only_non_Exception_errors_propagate interrupted_parser doc_good_bad).
  exists [], (lit "MSH|^~\&|ADT"), [lit "garbage"].
  repeat split; [constructor].
Defined.

(** C2, as stated, fails: a parser that raises [MemoryError] (resource
    exhaustion) is caught by [except Exception], the loop records a failed
    entry for the message and goes on. *)
Lemma memory_error_is_recorded :
  out_of_memory_parser (lit "MSH|1") =
    Raises (mk_exception MemoryError (lit "out of memory")) /\
  process_file out_of_memory_parser doc_one =
    Returns {| successful := 0; failed := 1;
               results := [failed_result 1 (Some (lit "out of memory"))
                             (lit "MSH|1")] |}.
Proof. split; reflexivity. Qed.




(** C4 (order preservation and completeness).  A report returned by
    [process_file] holds as many entries as candidates were extracted,
    their [message_index] values are [1..N] in increasing order, and the
    entry at position [i] is the one of candidate [i].  A report is
    returned whenever the parser raises nothing that escapes
    [except Exception]. *)
Theorem order_preservation_and_completeness (Hl7Json : parser)
    (content : str) :
  (Forall (fun m => recoverable (Hl7Json m) = true)
     (extract_hl7_messages_from_markdown content) ->
   exists r, process_file Hl7Json content = Returns r) /\
  (forall r, process_file Hl7Json content = Returns r ->
     length (results r) = length (extract_hl7_messages_from_markdown content) /\
     map message_index (results r) =
       seq 1 (length (extract_hl7_messages_from_markdown content)) /\
     forall i m,
       extract_hl7_messages_from_markdown content !! i = Some m ->
       results r !! i = Some (entry_for Hl7Json i m)).
Proof.
  split.
  - intros Hall. eexists. by apply process_file_recoverable.
  - intros r Hr. pose proof (process_file_returns_inv _ _ _ Hr) as Hall.
    rewrite (process_file_recoverable _ _ Hall) in Hr. injection Hr as <-.
    simpl. split; [apply entries_from_length|].
    split; [apply (entries_from_indices Hl7Json _ 0)|].
    intros i m Hi. by rewrite (entries_from_lookup _ _ 0 i m Hi).
Qed.

Lemma order_preservation_and_completeness_witness :
  exists r,
    process_file demo_parser doc_good_bad = Returns r /\
    length (results r) = 2 /\
    map message_index (results r) = [1; 2].
Proof.
  destruct (order_preservation_and_completeness demo_parser doc_good_bad)
    as [Hex Hall].
  destruct Hex as [r Hr]; [vm_compute; repeat constructor|].
  exists r. split; [exact Hr|].
  destruct (Hall r Hr) as (Hlen & Hidx & _). split; [exact Hlen | exact Hidx].
Defined.

(** C5 (count consistency).  In a report returned by [process_file] the
    success counter is the number of entries with status success and the
    failure counter is the number of entries with status failed. *)
Theorem count_consistency (Hl7Json : parser) (content : str) (r : report) :
  process_file Hl7Json content = Returns r ->
  successful r = count is_success (results r) /\
  failed r = count is_failed (results r).
Proof.
  intros Hr. pose proof (process_file_returns_inv _ _ _ Hr) as Hall.
  rewrite (process_file_recoverable _ _ Hall) in Hr. by injection Hr as <-.
Qed.

Lemma count_consistency_witness :
  exists r,
    process_file demo_parser doc_good_bad = Returns r /\
    successful r = count is_success (results r) /\
    failed r = count is_failed (results r).
Proof.
  eexists. split; [reflexivity|].
  apply (count_consistency demo_parser doc_good_bad). reflexivity.
Defined.

(** C6 (non-greedy extraction).  Every candidate is the text between an
    opening marker and the next closing marker after it: no closing marker
    ends a shorter span.  A document made of fence, content [A], fence,
    fence, content [B], fence (plain text allowed between the two blocks)
    yields the two candidates [A] and [B], where content means text that
    holds no closing marker of its own. *)
Theorem non_greedy_extraction :
  (forall content g,
     g ∈ extract_hl7_messages_from_markdown content ->
     exists pre post,
       content = pre ++ Re.fence_open ++ g ++ Re.fence_close ++ post /\
       forall g' post',
         g ++ Re.fence_close ++ post = g' ++ Re.fence_close ++ post' ->
         length g <= length g') /\
  (forall A B sep,
     occurs Re.fence_close A = false ->
     occurs Re.fence_close B = false ->
     Forall (fun c => c <> bt) sep ->
     extract_hl7_messages_from_markdown (block A ++ sep ++ block B) = [A; B]).
Proof.
  split.
  - intros content g Hg. by apply scan_elem in Hg.
  - intros A B sep HA HB Hsep.
    unfold extract_hl7_messages_from_markdown, Re.findall, block.
    rewrite <- !app_assoc. rewrite (scan_block _ _ HA).
    rewrite (scan_plain_prefix _ _ Hsep).
    rewrite <- (app_nil_r Re.fence_close) at 1.
    by rewrite (scan_block _ _ HB).
Qed.

Lemma non_greedy_extraction_witness :
  extract_hl7_messages_from_markdown
    (block (lit "MSH|A") ++ [] ++ block (lit "MSH|B")) =
    [lit "MSH|A"; lit "MSH|B"].
Proof.
  apply (proj2 non_greedy_extraction (lit "MSH|A") (lit "MSH|B") []);
    [reflexivity | reflexivity | constructor].
Defined.

(** C7 (empty input).  A document without a marker pair, the empty
    document included, yields no candidate, and [process_file] returns the
    report with no entry and both counters at zero, whatever the parser. *)
Theorem empty_input_is_not_an_error (content : str) :
  content = [] \/ ~ has_marker_pair content ->
  extract_hl7_messages_from_markdown content = [] /\
  forall Hl7Json : parser,
    process_file Hl7Json content =
      Returns {| successful := 0; failed := 0; results := [] |}.
Proof.
  intros Hc.
  assert (extract_hl7_messages_from_markdown content = []) as He.
  { destruct Hc as [->|Hno]; [done|].
    destruct (extract_hl7_messages_from_markdown content) as [|g gs] eqn:Hx;
      [done|].
    destruct Hno.
    assert (g ∈ extract_hl7_messages_from_markdown content) as Hg
      by (rewrite Hx; apply elem_of_cons; by left).
    apply scan_elem in Hg as (pre & post & -> & _). by exists pre, g, post. }
  split; [done|]. intros Hl7Json. unfold process_file. by rewrite He.
Qed.

Lemma empty_input_is_not_an_error_witness :
  extract_hl7_messages_from_markdown doc_plain = [] /\
  process_file demo_parser doc_plain =
    Returns {| successful := 0; failed := 0; results := [] |}.
Proof.
  destruct (empty_input_is_not_an_error doc_plain) as [He Hp].
  - right. intros (pre & g & post & Hd).
    apply (scan_complete pre g post). by rewrite <- Hd.
  - split; [exact He | exact (Hp demo_parser)].
Defined.

(** C8 (failure outcome contents).  For a candidate whose parse fails with
    a signaled error, the entry of the report at the candidate's position
    is a failed one that carries the text of the error and the candidate's
    raw text, unchanged. *)
Theorem failure_outcome_contents (Hl7Json : parser) (content : str)
    (i : nat) (m : str) (e : py_exception) :
  Forall (fun m => recoverable (Hl7Json m) = true)
    (extract_hl7_messages_from_markdown content) ->
  extract_hl7_messages_from_markdown content !! i = Some m ->
  Hl7Json m = Raises e ->
  exists r,
    process_file Hl7Json content = Returns r /\
    results r !! i = Some (failed_result (i + 1) (Some (exc_text e)) m).
Proof.
  intros Hall Hi Hm. eexists. split; [by apply process_file_recoverable|].
  simpl. rewrite (entries_from_lookup _ _ 0 i m Hi). simpl.
  unfold entry_for. by rewrite Hm.
Qed.

Lemma failure_outcome_contents_witness :
  exists r,
    process_file demo_parser doc_good_bad = Returns r /\
    results r !! 1 =
      Some (failed_result 2 (Some (lit "not an HL7 message")) (lit "garbage")).
Proof.
  apply (failure_outcome_contents demo_parser doc_good_bad 1 (lit "garbage")
           (mk_exception ValueError (lit "not an HL7 message"))).
  - vm_compute. repeat constructor.
  - reflexivity.
  - reflexivity.
Defined.

(** C9, as amended.  When the parser returns, or raises an exception that
    derives from [Exception], [convert_hl7_to_json] does not raise: it
    returns the pair of the parser's value and no error, or the pair of no
    value and the text of the caught exception. *)
Theorem conversion_returns_value_or_error (Hl7Json : parser) (message : str) :
  recoverable (Hl7Json message) = true ->
  (exists v, Hl7Json message = Returns v /\
     convert_hl7_to_json Hl7Json message = Returns (v, None)) \/
  (exists e, Hl7Json message = Raises e /\
     convert_hl7_to_json Hl7Json message =
       Returns (PNone, Some (exc_text e))).
Proof.
  unfold recoverable. destruct (Hl7Json message) as [v|e] eqn:Hm; intros Hr.
  - left. exists v. split; [done|]. by apply convert_returns.
  - right. exists e. split; [done|]. by apply convert_caught.
Qed.

Lemma conversion_returns_value_or_error_witness :
  (exists v, demo_parser (lit "garbage") = Returns v /\
     convert_hl7_to_json demo_parser (lit "garbage") = Returns (v, None)) \/
  (exists e, demo_parser (lit "garbage") = Raises e /\
     convert_hl7_to_json demo_parser (lit "garbage") =
       Returns (PNone, Some (exc_text e))).
Proof.
  apply (conversion_returns_value_or_error demo_parser (lit "garbage")).
  reflexivity.
Defined.

(** C9, as stated, fails: [KeyboardInterrupt] does not derive from
    [Exception], so the handler does not run and the call raises. *)
Lemma conversion_raises_on_interrupt :
  convert_hl7_to_json interrupted_parser (lit "MSH|1") =
    Raises (mk_exception KeyboardInterrupt []).
Proof. reflexivity. Qed.

(** C10 (newline-adjacent markers).  A candidate is always the text between
    a marker followed at once by a newline and a marker preceded at once by
    a newline, without those two newlines and without the markers.  A
    fenced block written on one line yields no candidate, and neither does
    a block whose opening marker carries a language tag. *)
Theorem markers_must_be_newline_adjacent :
  (forall content g,
     g ∈ extract_hl7_messages_from_markdown content ->
     exists pre post,
       content = pre ++ (fence ++ [nl]) ++ g ++ ([nl] ++ fence) ++ post) /\
  (forall body,
     nl ∉ body ->
     extract_hl7_messages_from_markdown (fence ++ body ++ fence) = []) /\
  (forall tag body,
     tag <> [] ->
     Forall (fun c => c <> bt /\ c <> nl) tag ->
     Forall (fun c => c <> bt) body ->
     extract_hl7_messages_from_markdown
       (fence ++ tag ++ [nl] ++ body ++ [nl] ++ fence) = []).
Proof.
  split; [|split].
  - intros content g Hg. apply scan_elem in Hg as (pre & post & -> & _).
    by exists pre, post.
  - intros body Hbody. apply scan_no_newline.
    unfold fence. rewrite !elem_of_app, !elem_of_cons, elem_of_nil.
    intros [H|[H|H]]; [|done|]; by decompose [or] H.
  - intros [|t tag] body Htag Ht Hbody; [done|].
    inversion Ht as [|? ? [Htb Htn] Htag']; subst.
    unfold extract_hl7_messages_from_markdown, Re.findall, fence.
    assert (forall s, Re.match_at (bt :: bt :: bt :: t :: s) = None) as H3.
    { intros s. unfold Re.match_at, Re.fence_open. cbn [Re.startswith].
      rewrite !Ascii.eqb_refl. destruct (Ascii.eqb_spec nl t); [by subst|done]. }
    assert (forall s, Re.match_at (bt :: bt :: t :: s) = None) as H2.
    { intros s. unfold Re.match_at, Re.fence_open. cbn [Re.startswith].
      rewrite !Ascii.eqb_refl. destruct (Ascii.eqb_spec bt t); [by subst|done]. }
    assert (forall s, Re.match_at (bt :: t :: s) = None) as H1.
    { intros s. unfold Re.match_at, Re.fence_open. cbn [Re.startswith].
      rewrite !Ascii.eqb_refl. destruct (Ascii.eqb_spec bt t); [by subst|].
      by rewrite andb_false_r. }
    cbn [app]. rewrite (scan_no_match _ _ (H3 _)), (scan_no_match _ _ (H2 _)),
      (scan_no_match _ _ (H1 _)).
    rewrite (scan_no_match _ _ (match_at_first _ _ Htb)).
    rewrite (scan_plain_prefix tag).
    2:{ eapply Forall_impl; [exact Htag'|]. by intros c [? _]. }
    rewrite (scan_no_match _ _ (match_at_first nl _ ltac:(done))).
    rewrite (scan_plain_prefix body _ Hbody).
    reflexivity.
Qed.

Lemma markers_must_be_newline_adjacent_witness :
  extract_hl7_messages_from_markdown (fence ++ lit "MSH|1" ++ fence) = [] /\
  extract_hl7_messages_from_markdown
    (fence ++ lit "hl7" ++ [nl] ++ lit "MSH|1" ++ [nl] ++ fence) = [].
Proof.
  destruct markers_must_be_newline_adjacent as (_ & Hline & Htag). split.
  - apply (Hline (lit "MSH|1")). cbv [lit list_ascii_of_string].
    rewrite !elem_of_cons, elem_of_nil. intros H. by decompose [or] H.
  - apply (Htag (lit "hl7") (lit "MSH|1")); [done| |]; repeat constructor; done.
Defined.

(** ** Further properties of the extraction *)

Section extraction_facts.
Import Re.

Lemma occurs_unfold p s :
  occurs p s = startswith p s ||
    match s with [] => false | _ :: s' => occurs p s' end.
Proof. by destruct s. Qed.

Lemma occurs_app p a b : occurs p (a ++ p ++ b) = true.
Proof.
  induction a as [|c a IH]; rewrite occurs_unfold.
  - simpl. by rewrite startswith_app.
  - rewrite <- app_comm_cons, IH. apply orb_true_r.
Qed.

Lemma scan_drop_close s k :
  scan k s <> [] -> occurs fence_close (drop (length fence_open) s) = true.
Proof.
  destruct (scan k s) as [|g gs] eqn:Hs; [done|]. intros _.
  assert (g ∈ scan k s) as Hg by (rewrite Hs; apply elem_of_cons; by left).
  apply scan_elem in Hg as (pre & post & -> & _).
  rewrite (app_assoc pre), (app_assoc _ g).
  rewrite drop_app_le by (rewrite !length_app; simpl; lia).
  apply occurs_app.
Qed.

Lemma scan_unterminated B :
  occurs fence_close B = false -> scan 0 (fence_open ++ B) = [].
Proof.
  intros HB. destruct (scan 0 (fence_open ++ B)) as [|g gs] eqn:Hs; [done|].
  assert (scan 0 (fence_open ++ B) <> []) as Hne by (by rewrite Hs).
  apply scan_drop_close in Hne. rewrite drop_app_length in Hne. congruence.
Qed.

Lemma scan_bound s : forall k,
  sum_list_with (fun g => length fence_open + length g + length fence_close)
    (scan k s) <= length s - k.
Proof.
  induction s as [|c s IH]; intros k; [simpl; lia|].
  destruct k as [|k]; simpl scan.
  - destruct (match_at (c :: s)) as [[g n]|] eqn:Hm.
    + apply match_at_Some in Hm as (-> & post & Hs & _).
      cbn [sum_list_with]. specialize (IH (pred (length fence_open + length g
        + length fence_close))).
      assert (length (c :: s) = length fence_open + length g
              + length fence_close + length post) as Hlen.
      { rewrite Hs, !length_app. lia. }
      cbn [length] in Hlen.
      set (rest := sum_list_with _ _) in *.
      change (length fence_open) with 4 in *.
      change (length fence_close) with 4 in *.
      cbn [length]. simpl pred in IH. lia.
    + specialize (IH 0). cbn [length]. lia.
  - specialize (IH k). cbn [length]. lia.
Qed.

End extraction_facts.

(** X1.  Round trip: a document made of an introduction without backquotes
    and of fenced blocks, each followed by text without backquotes, extracts
    to the list of the blocks' contents, in order, when no content holds a
    closing marker line of its own. *)
Theorem extraction_of_fenced_document (intro : str)
    (parts : list (str * str)) :
  Forall (fun c => c <> bt) intro ->
  Forall (fun part =>
            occurs Re.fence_close (fst part) = false /\
            Forall (fun c => c <> bt) (snd part)) parts ->
  extract_hl7_messages_from_markdown (fenced_document intro parts) =
    map fst parts.
Proof.
  intros Hintro Hparts.
  unfold extract_hl7_messages_from_markdown, Re.findall, fenced_document.
  rewrite (scan_plain_prefix _ _ Hintro). clear intro Hintro.
  induction Hparts as [|[m sep] parts [Hm Hsep] _ IH]; [done|].
  cbn [map concat fst snd]. unfold block at 1.
  rewrite <- !app_assoc. rewrite (scan_block _ _ Hm).
  rewrite (scan_plain_prefix _ _ Hsep). by rewrite IH.
Qed.

Lemma extraction_of_fenced_document_witness :
  extract_hl7_messages_from_markdown
    (fenced_document (lit "# Log")
       [(lit "MSH|1", [nl]); (lit "oops", lit " and "); (lit "MSH|3", [])]) =
    [lit "MSH|1"; lit "oops"; lit "MSH|3"].
Proof.
  apply (extraction_of_fenced_document (lit "# Log")
           [(lit "MSH|1", [nl]); (lit "oops", lit " and "); (lit "MSH|3", [])]).
  - repeat constructor; done.
  - repeat constructor; done.
Defined.

(** X2.  No candidate holds a closing marker line (a newline followed by
    three backquotes): the group stops at the first one. *)
Theorem candidates_hold_no_closing_marker (content g : str) :
  g ∈ extract_hl7_messages_from_markdown content ->
  occurs Re.fence_close g = false.
Proof.
  intros (pre & post & _ & Hmin)%scan_elem.
  destruct (occurs Re.fence_close g) eqn:Ho; [|done]. exfalso.
  assert (exists a b, g = a ++ Re.fence_close ++ b) as (a & b & ->).
  { clear Hmin. induction g as [|c g IH].
    - simpl in Ho. done.
    - rewrite occurs_unfold in Ho. apply orb_prop in Ho as [Hs|Hg].
      + apply startswith_inv in Hs. by exists [], (drop (length Re.fence_close) (c :: g)).
      + destruct (IH Hg) as (a & b & ->). by exists (c :: a), b. }
  specialize (Hmin a (b ++ Re.fence_close ++ post)).
  rewrite <- !app_assoc in Hmin. specialize (Hmin eq_refl).
  rewrite !length_app in Hmin. simpl in Hmin. lia.
Qed.

Lemma candidates_hold_no_closing_marker_witness :
  occurs Re.fence_close (lit "garbage") = false.
Proof.
  apply (candidates_hold_no_closing_marker doc_good_bad (lit "garbage")).
  vm_compute. apply elem_of_cons. right. apply elem_of_cons. by left.
Defined.

(** X3.  The matches do not overlap: the candidates, each with the eight
    characters of its two marker lines, fit in the document.  A document of
    [n] characters holds at most [n / 8] candidates. *)
Theorem candidates_fit_in_the_document (content : str) :
  sum_list_with (fun g => length g + 8)
    (extract_hl7_messages_from_markdown content) <= length content /\
  8 * length (extract_hl7_messages_from_markdown content) <= length content.
Proof.
  pose proof (scan_bound content 0) as Hb.
  fold (Re.findall content) in Hb.
  fold (extract_hl7_messages_from_markdown content) in Hb.
  assert (forall l : list str,
    sum_list_with (fun g => length Re.fence_open + length g
                            + length Re.fence_close) l =
    sum_list_with (fun g => length g + 8) l) as Heq.
  { induction l as [|g l IH]; simpl in *; [done|]. rewrite IH. lia. }
  rewrite Heq in Hb. split; [lia|].
  assert (forall l : list str,
    8 * length l <= sum_list_with (fun g => length g + 8) l) as Hle.
  { induction l as [|g l IH]; simpl in *; lia. }
  specialize (Hle (extract_hl7_messages_from_markdown content)). lia.
Qed.

(** X4.  An opening marker line that is never closed yields nothing: after
    a complete block, a trailing block without its closing marker line is
    dropped, and a document that is one unterminated block has no
    candidate. *)
Theorem unterminated_block_is_dropped (A sep B : str) :
  occurs Re.fence_close A = false ->
  Forall (fun c => c <> bt) sep ->
  occurs Re.fence_close B = false ->
  extract_hl7_messages_from_markdown (Re.fence_open ++ B) = [] /\
  extract_hl7_messages_from_markdown (block A ++ sep ++ Re.fence_open ++ B)
    = [A].
Proof.
  intros HA Hsep HB.
  unfold extract_hl7_messages_from_markdown, Re.findall, block.
  split; [by apply scan_unterminated|].
  rewrite <- !app_assoc. rewrite (scan_block _ _ HA).
  rewrite (scan_plain_prefix _ _ Hsep). by rewrite (scan_unterminated _ HB).
Qed.

Lemma unterminated_block_is_dropped_witness :
  extract_hl7_messages_from_markdown (Re.fence_open ++ lit "MSH|2") = [] /\
  extract_hl7_messages_from_markdown
    (block (lit "MSH|1") ++ [nl] ++ Re.fence_open ++ lit "MSH|2") =
    [lit "MSH|1"].
Proof.
  apply (unterminated_block_is_dropped (lit "MSH|1") [nl] (lit "MSH|2"));
    [reflexivity | repeat constructor; done | reflexivity].
Defined.

(** ** Further properties of the conversion loop *)

(** X5.  Every candidate is counted once: in a returned report the two
    counters add up to the number of extracted candidates. *)
Theorem counters_add_up (Hl7Json : parser) (content : str) (r : report) :
  process_file Hl7Json content = Returns r ->
  successful r + failed r =
    length (extract_hl7_messages_from_markdown content).
Proof.
  intros Hr. pose proof (process_file_returns_inv _ _ _ Hr) as Hall.
  rewrite (process_file_recoverable _ _ Hall) in Hr. injection Hr as <-.
  simpl. by rewrite count_success_failed, entries_from_length.
Qed.

Lemma counters_add_up_witness :
  exists r, process_file demo_parser doc_good_bad_good = Returns r /\
            successful r + failed r = 3.
Proof.
  eexists. split; [reflexivity|].
  apply (counters_add_up demo_parser doc_good_bad_good). reflexivity.
Defined.

(** X6.  A failed entry without error text is what a value that tests
    false leaves behind: in a returned report the entry of a candidate is
    the failed one with [error = None] exactly when the parser returned,
    without raising, a value such as [{}], [[]], [None], [0] or [""]. *)
Theorem failed_without_error_iff_falsy (Hl7Json : parser) (content : str)
    (r : report) (i : nat) (m : str) :
  process_file Hl7Json content = Returns r ->
  extract_hl7_messages_from_markdown content !! i = Some m ->
  results r !! i = Some (failed_result (i + 1) None m) <->
  exists v, Hl7Json m = Returns v /\ truthy v = false.
Proof.
  intros Hr Hi. pose proof (process_file_returns_inv _ _ _ Hr) as Hall.
  rewrite (process_file_recoverable _ _ Hall) in Hr. injection Hr as <-.
  simpl. rewrite (entries_from_lookup _ _ 0 i m Hi). simpl.
  unfold entry_for. destruct (Hl7Json m) as [v|e].
  - destruct (truthy v) eqn:Hv; split.
    + done.
    + intros (v' & [= <-] & Hv'). congruence.
    + intros _. by exists v.
    + done.
  - split; [done|]. by intros (v & ? & _).
Qed.

Lemma failed_without_error_iff_falsy_witness :
  exists r,
    process_file empty_object_parser doc_one = Returns r /\
    results r !! 0 = Some (failed_result 1 None (lit "MSH|1")).
Proof.
  eexists. split; [reflexivity|].
  apply (failed_without_error_iff_falsy empty_object_parser doc_one _ 0
           (lit "MSH|1")); [reflexivity | reflexivity |].
  exists (PDict []). split; reflexivity.
Defined.

(** X7.  A success entry is backed by the parser: its index is the
    candidate's position plus one, and its data is the value the parser
    returned for that candidate, a value that tests true. *)
Theorem success_entry_is_parser_value (Hl7Json : parser) (content : str)
    (r : report) (i idx : nat) (m : str) (v : pyval) :
  process_file Hl7Json content = Returns r ->
  extract_hl7_messages_from_markdown content !! i = Some m ->
  results r !! i = Some (success_result idx v) ->
  idx = i + 1 /\ Hl7Json m = Returns v /\ truthy v = true.
Proof.
  intros Hr Hi. pose proof (process_file_returns_inv _ _ _ Hr) as Hall.
  rewrite (process_file_recoverable _ _ Hall) in Hr. injection Hr as <-.
  simpl. rewrite (entries_from_lookup _ _ 0 i m Hi). simpl.
  unfold entry_for. destruct (Hl7Json m) as [v'|e]; [|done].
  destruct (truthy v') eqn:Hv; [|done]. by intros [= <- <-].
Qed.

Lemma success_entry_is_parser_value_witness :
  exists r,
    process_file demo_parser doc_good_bad_good = Returns r /\
    demo_parser (lit "MSH|3") =
      Returns (PDict [(lit "MSH", PStr (lit "MSH|3"))]).
Proof.
  eexists. split; [reflexivity|].
  eapply (success_entry_is_parser_value demo_parser doc_good_bad_good _ 2 3
            (lit "MSH|3")); reflexivity.
Defined.

(** ** Phone numbers *)

Section phone_facts.
Import Contacts.

Lemma is_digit_not_plus c : is_digit c = true -> c <> plus.
Proof. intros Hc ->. by vm_compute in Hc. Qed.

Lemma remove_non_digits_digits s : Forall (fun c => is_digit c = true)
                                     (remove_non_digits s).
Proof.
  apply List.Forall_forall. intros c Hc.
  by apply List.filter_In in Hc as [_ ?].
Qed.

Lemma remove_non_digits_id s :
  Forall (fun c => is_digit c = true) s -> remove_non_digits s = s.
Proof.
  induction 1 as [|c s Hc _ IH]; [done|].
  unfold remove_non_digits in *. simpl. by rewrite Hc, IH.
Qed.

Lemma remove_non_digits_nil_iff s :
  remove_non_digits s = [] <-> forall c, c ∈ s -> is_digit c = false.
Proof.
  unfold remove_non_digits. induction s as [|c s IH]; simpl.
  - split; [by intros _ c ?%elem_of_nil | done].
  - destruct (is_digit c) eqn:Hc; split.
    + done.
    + intros H. specialize (H c). rewrite Hc in H.
      by specialize (H (list_elem_of_here _ _)).
    + intros Hs c' [->|Hin]%elem_of_cons; [done|]. by apply IH.
    + intros H. apply IH. intros c' Hin. apply H. by apply elem_of_cons; right.
Qed.

Lemma after_digits_nil s :
  Forall (fun c => is_digit c = true) s -> after_digits s = [].
Proof. induction 1 as [|c s Hc _ IH]; [done|]. simpl. by rewrite Hc. Qed.

Lemma startswith_plus_digits s :
  Forall (fun c => is_digit c = true) s -> Re.startswith [plus] s = false.
Proof.
  destruct 1 as [|c s Hc _]; [done|]. cbn [Re.startswith].
  destruct (Ascii.eqb_spec plus c) as [<-|]; [by vm_compute in Hc | done].
Qed.

Lemma string_of_uint_digits d :
  Forall (fun c => is_digit c = true)
    (list_ascii_of_string (NilEmpty.string_of_uint d)).
Proof. induction d; simpl; by constructor. Qed.

Lemma string_of_pos_nonempty p :
  NilZero.string_of_uint (Pos.to_uint p) =
    NilEmpty.string_of_uint (Pos.to_uint p).
Proof.
  unfold NilZero.string_of_uint.
  destruct (Pos.to_uint p) eqn:Hp; try done.
  exfalso. revert Hp. apply Unsigned.to_uint_nonnil.
Qed.

Lemma str_of_int_pos p :
  str_of_int (Z.pos p) =
    list_ascii_of_string (NilEmpty.string_of_uint (Pos.to_uint p)).
Proof.
  unfold str_of_int. cbn [Z.to_int NilZero.string_of_int].
  by rewrite string_of_pos_nonempty.
Qed.

Lemma str_of_int_neg p :
  str_of_int (Z.neg p) =
    "-"%char :: list_ascii_of_string
                  (NilEmpty.string_of_uint (Pos.to_uint p)).
Proof.
  unfold str_of_int. cbn [Z.to_int NilZero.string_of_int].
  by rewrite string_of_pos_nonempty.
Qed.

Lemma clean_digits d :
  Forall (fun c => is_digit c = true) d ->
  clean_phone_number (phone_str d) = d.
Proof.
  intros Hd. unfold clean_phone_number. cbn [as_str].
  by rewrite (startswith_plus_digits _ Hd), (remove_non_digits_id _ Hd).
Qed.

Lemma clean_plus_digits d :
  Forall (fun c => is_digit c = true) d ->
  clean_phone_number (phone_str (plus :: d)) = plus :: d.
Proof.
  intros Hd. unfold clean_phone_number. cbn [as_str].
  change (Re.startswith [plus] (plus :: d)) with true.
  change (remove_non_digits (plus :: d)) with (remove_non_digits d).
  by rewrite (remove_non_digits_id _ Hd).
Qed.

End phone_facts.

Lemma clean_format_facts (phone_number : Contacts.phone_value) :
  (Contacts.matches_phone_format (Contacts.clean_phone_number phone_number)
     = true <->
   exists c, c ∈ Contacts.as_str phone_number /\ Contacts.is_digit c = true) /\
  ((forall c, c ∈ Contacts.as_str phone_number -> Contacts.is_digit c = false) ->
   Contacts.clean_phone_number phone_number = [] \/
   Contacts.clean_phone_number phone_number = [Contacts.plus]).
Proof.
  pose proof (remove_non_digits_digits (Contacts.as_str phone_number)) as Hd.
  pose proof (remove_non_digits_nil_iff (Contacts.as_str phone_number)) as Hnil.
  unfold Contacts.clean_phone_number.
  set (digits := Contacts.remove_non_digits (Contacts.as_str phone_number)) in *.
  assert (Contacts.matches_phone_format digits = true <-> digits <> []) as Hm.
  { unfold Contacts.matches_phone_format.
    destruct Hd as [|c ds Hc Hds]; [done|].
    destruct (Ascii.eqb_spec c Contacts.plus) as [->|_]; [done|].
    simpl. rewrite Hc. simpl. by rewrite (after_digits_nil _ Hds). }
  assert (Contacts.matches_phone_format (Contacts.plus :: digits) = true
          <-> digits <> []) as Hp.
  { unfold Contacts.matches_phone_format. rewrite Ascii.eqb_refl.
    destruct Hd as [|c ds Hc Hds]; [done|].
    rewrite Hc. simpl. rewrite Hc. by rewrite (after_digits_nil _ Hds). }
  assert (digits <> [] <->
          exists c, c ∈ Contacts.as_str phone_number /\
                    Contacts.is_digit c = true) as Hex.
  { split.
    - intros Hne. destruct digits as [|c ds] eqn:Heq; [done|].
      exists c. assert (List.In c (Contacts.remove_non_digits
                                     (Contacts.as_str phone_number))) as Hin
        by (fold digits; rewrite Heq; by left).
      apply List.filter_In in Hin as [Hin ?]. split; [|done].
      by apply list_elem_of_In.
    - intros (c & Hin & Hc) Hd0.
      pose proof (proj1 Hnil Hd0 c Hin) as Hc'. congruence. }
  split.
  - destruct (Re.startswith _ _); [by rewrite Hp | by rewrite Hm].
  - intros Hnone. rewrite (proj2 Hnil Hnone).
    destruct (Re.startswith _ _); auto.
Qed.


(** X8.  The cleaned number holds nothing but the digits [0-9], except for
    a plus sign that can only come first and is there exactly when the
    input started with one. *)
Theorem cleaned_number_is_plus_and_digits (phone_number : Contacts.phone_value) :
  exists digits,
    Forall (fun c => Contacts.is_digit c = true) digits /\
    Contacts.clean_phone_number phone_number =
      (if Re.startswith [Contacts.plus] (Contacts.as_str phone_number)
       then Contacts.plus :: digits else digits) /\
    forall i c,
      Contacts.clean_phone_number phone_number !! i = Some c ->
      c = Contacts.plus -> i = 0.
Proof.
  exists (Contacts.remove_non_digits (Contacts.as_str phone_number)).
  pose proof (remove_non_digits_digits (Contacts.as_str phone_number)) as Hd.
  split; [done|]. split; [done|].
  unfold Contacts.clean_phone_number. intros i c Hi ->.
  assert (forall j, Contacts.remove_non_digits (Contacts.as_str phone_number)
                      !! j = Some Contacts.plus -> False) as Hno.
  { intros j Hj. by apply (proj1 (Forall_lookup _ _) Hd j) in Hj. }
  destruct (Re.startswith _ _).
  - destruct i as [|i]; [done|]. by apply Hno in Hi.
  - by apply Hno in Hi.
Qed.

Lemma cleaned_number_is_plus_and_digits_witness :
  exists digits,
    Contacts.clean_phone_number (Contacts.phone_str (lit "+44 (0)20-7946")) =
      Contacts.plus :: digits /\
    Forall (fun c => Contacts.is_digit c = true) digits.
Proof.
  destruct (cleaned_number_is_plus_and_digits
              (Contacts.phone_str (lit "+44 (0)20-7946")))
    as (digits & Hdigits & Hclean & Hplus).
  exists digits. split; [exact Hclean | exact Hdigits].
Defined.

(** X9.  Cleaning is idempotent: a number that was cleaned is left as it
    is by a second cleaning. *)
Theorem cleaning_is_idempotent (phone_number : Contacts.phone_value) :
  Contacts.clean_phone_number
    (Contacts.phone_str (Contacts.clean_phone_number phone_number)) =
  Contacts.clean_phone_number phone_number.
Proof.
  unfold Contacts.clean_phone_number at 2 3.
  pose proof (remove_non_digits_digits (Contacts.as_str phone_number)) as Hd.
  destruct (Re.startswith [Contacts.plus] (Contacts.as_str phone_number)).
  - by apply clean_plus_digits.
  - by apply clean_digits.
Qed.

(** X10.  The cleaned number passes the format check of the test, an
    optional plus sign followed by one digit or more, exactly when the
    input holds a digit: an input without any digit is cleaned to the empty
    string or to a lone plus sign. *)
Theorem cleaned_number_format_iff_digit (phone_number : Contacts.phone_value) :
  (Contacts.matches_phone_format (Contacts.clean_phone_number phone_number)
     = true <->
   exists c, c ∈ Contacts.as_str phone_number /\ Contacts.is_digit c = true) /\
  ((forall c, c ∈ Contacts.as_str phone_number -> Contacts.is_digit c = false) ->
   Contacts.clean_phone_number phone_number = [] \/
   Contacts.clean_phone_number phone_number = [Contacts.plus]).
Proof. apply clean_format_facts. Qed.

Lemma cleaned_number_format_iff_digit_witness :
  Contacts.clean_phone_number (Contacts.phone_str (lit "+n/a")) =
    [Contacts.plus].
Proof.
  destruct (proj2 (cleaned_number_format_iff_digit
                     (Contacts.phone_str (lit "+n/a")))) as [H|H].
  - intros c Hc. cbv [Contacts.as_str lit list_ascii_of_string] in Hc.
    rewrite !elem_of_cons, elem_of_nil in Hc.
    by decompose [or] Hc; subst.
  - discriminate H.
  - exact H.
Defined.

(** X11.  An integer is cleaned to its decimal digits, the sign of a
    negative one being dropped: [clean_phone_number(n)] is [str(abs(n))]. *)
Theorem cleaned_integer_is_its_digits (z : Z) :
  Contacts.clean_phone_number (Contacts.phone_int z) =
    Contacts.str_of_int (Z.abs z).
Proof.
  destruct z as [|p|p]; [done| |].
  - change (Z.abs (Z.pos p)) with (Z.pos p).
    change (Contacts.clean_phone_number (Contacts.phone_int (Z.pos p)))
      with (Contacts.clean_phone_number
              (Contacts.phone_str (Contacts.str_of_int (Z.pos p)))).
    rewrite str_of_int_pos. apply (clean_digits _ (string_of_uint_digits _)).
  - change (Z.abs (Z.neg p)) with (Z.pos p). rewrite str_of_int_pos.
    pose proof (string_of_uint_digits (Pos.to_uint p)) as Hd.
    unfold Contacts.clean_phone_number. cbn [Contacts.as_str].
    rewrite str_of_int_neg.
    change (Re.startswith [Contacts.plus] ("-"%char :: ?d)) with false.
    change (Contacts.remove_non_digits ("-"%char :: ?d))
      with (Contacts.remove_non_digits d).
    cbv iota. by apply remove_non_digits_id.
Qed.

(** ** main.py on the file system *)

Section on_disk_facts.
Variable Hl7Json : parser.
Variable json_dump : list result -> str.
Variable str_of_os_error : OnDisk.os_error -> str.

Lemma findall_nil_of_no_pair content :
  ~ has_marker_pair content -> Re.findall content = [].
Proof.
  intros Hno. destruct (Re.findall content) as [|g gs] eqn:Hx; [done|].
  destruct Hno.
  assert (g ∈ Re.scan 0 content) as Hg
    by (fold (Re.findall content); rewrite Hx; apply elem_of_cons; by left).
  apply scan_elem in Hg as (pre & post & -> & _). by exists pre, g, post.
Qed.

Lemma exists_true d path :
  OnDisk.exists_ d path = true <-> is_Some (OnDisk.files d !! path).
Proof. unfold OnDisk.exists_. apply bool_decide_eq_true. Qed.

Lemma exists_false d path :
  OnDisk.exists_ d path = false <-> OnDisk.files d !! path = None.
Proof.
  unfold OnDisk.exists_. rewrite bool_decide_eq_false.
  by rewrite eq_None_not_Some.
Qed.

Lemma translate_newlines_id chars :
  OnDisk.cr ∉ chars -> OnDisk.translate_newlines false chars = chars.
Proof.
  induction chars as [|c chars IH]; [done|].
  intros [Hc Hrest]%not_elem_of_cons. simpl.
  destruct (Ascii.eqb_spec c OnDisk.cr) as [->|_]; [done|].
  rewrite andb_false_r. by rewrite IH.
Qed.

Lemma put_other d p chars path :
  path <> p ->
  OnDisk.files (OnDisk.put d p chars) !! path = OnDisk.files d !! path.
Proof.
  intros Hne. unfold OnDisk.put.
  destruct (OnDisk.files d !! p) as [[]|]; simpl; try done;
    by rewrite lookup_insert_ne.
Qed.

Lemma write_text_other d p text o d' path :
  OnDisk.write_text d p text = (o, d') ->
  path <> p ->
  OnDisk.files d' !! path = OnDisk.files d !! path.
Proof.
  unfold OnDisk.write_text. intros Hw Hne.
  destruct (OnDisk.files d !! p) as [[]|] eqn:Hp;
    try (by injection Hw as <- <-);
    destruct (OnDisk.on_write d p); injection Hw as <- <-;
    try done; by apply put_other.
Qed.

Lemma write_text_raise_inv d p text r d' :
  OnDisk.write_text d p text = (OnDisk.Raise r, d') ->
  exists e, r = OnDisk.os_raised e /\
    (d' = d \/
     exists written,
       OnDisk.on_write d p = OnDisk.breaks written e /\
       d' = OnDisk.put d p (take written text)).
Proof.
  unfold OnDisk.write_text.
  destruct (OnDisk.files d !! p) as [[]|] eqn:Hp;
    try (intros [= <- <-]; eexists; split; [done|by left]);
    destruct (OnDisk.on_write d p) as [|e|n e] eqn:Hw; intros [= <- <-];
    exists e; (split; [done|]); (by left) || (right; by exists n).
Qed.

Lemma write_text_accepted d p text :
  accepts_write d p ->
  OnDisk.write_text d p text =
    (OnDisk.Value (),
     {| OnDisk.files := <[p := OnDisk.text_file text]> (OnDisk.files d);
        OnDisk.on_write := OnDisk.on_write d |}).
Proof.
  intros (Hw & Hdir & Hperm). unfold OnDisk.write_text, OnDisk.put.
  rewrite Hw. by destruct (OnDisk.files d !! p) as [[]|].
Qed.

Lemma process_file_raise_inv d input output r d' :
  OnDisk.process_file Hl7Json json_dump d input output = (OnDisk.Raise r, d') ->
  (OnDisk.read_text d input = OnDisk.Raise r /\ d' = d) \/
  (exists e, r = OnDisk.parser_raised e /\
             derives_from_Exception (exc_type e) = false /\ d' = d) \/
  (exists content st,
     OnDisk.read_text d input = OnDisk.Value content /\
     for_enumerate Hl7Json 0 (Re.findall content) empty_report = Returns st /\
     OnDisk.write_text d output (json_dump (results st)) =
       (OnDisk.Raise r, d')).
Proof.
  unfold OnDisk.process_file, OnDisk.extract_hl7_messages_from_markdown.
  destruct (OnDisk.read_text d input) as [content|x] eqn:Hread.
  - destruct (for_enumerate _ _ _ _) as [st|e] eqn:Hloop.
    + destruct (OnDisk.write_text _ _ _) as [[[]|y] d2] eqn:Hwrite; [done|].
      intros [= <- <-]. right. right. by exists content, st.
    + intros [= <- <-]. right. left. exists e. split; [done|]. split; [|done].
      by apply for_enumerate_raises_inv in Hloop as (? & ? & ? & _ & _ & _ & ?).
  - intros [= <- <-]. by left.
Qed.

Lemma process_file_value d input output chars r :
  OnDisk.files d !! input = Some (OnDisk.text_file chars) ->
  accepts_write d output ->
  process_file Hl7Json (OnDisk.translate_newlines false chars) = Returns r ->
  OnDisk.process_file Hl7Json json_dump d input output =
    (OnDisk.Value (successful r, failed r),
     {| OnDisk.files :=
          <[output := OnDisk.text_file (json_dump (results r))]>
            (OnDisk.files d);
        OnDisk.on_write := OnDisk.on_write d |}).
Proof.
  intros Hin Hw Hr.
  unfold OnDisk.process_file, OnDisk.extract_hl7_messages_from_markdown,
    OnDisk.read_text.
  rewrite Hin. unfold process_file, extract_hl7_messages_from_markdown in Hr.
  by rewrite Hr, (write_text_accepted _ _ _ Hw).
Qed.

Lemma read_text_written d p text :
  OnDisk.read_text
    {| OnDisk.files := <[p := OnDisk.text_file text]> (OnDisk.files d);
       OnDisk.on_write := OnDisk.on_write d |} p =
  OnDisk.Value (OnDisk.translate_newlines false text).
Proof. unfold OnDisk.read_text. simpl. by rewrite lookup_insert_eq. Qed.

Lemma read_text_other d p text path :
  path <> p ->
  OnDisk.read_text
    {| OnDisk.files := <[p := OnDisk.text_file text]> (OnDisk.files d);
       OnDisk.on_write := OnDisk.on_write d |} path =
  OnDisk.read_text d path.
Proof.
  intros Hne. unfold OnDisk.read_text. simpl. by rewrite lookup_insert_ne.
Qed.

End on_disk_facts.

(** X13.  What a raise of [process_file] leaves behind.  The output is
    opened only after the loop: when the exception comes from the reading
    of the input or from the parser, every file is as it was.  Otherwise
    the exception comes from the output path, after a loop that returned:
    either the [open] was refused and every file is as it was, or the
    writing stopped and the output holds the characters of the dump that
    were written.  No other file than the output is ever changed. *)
Theorem process_file_raises_before_writing (Hl7Json : parser)
    (json_dump : list result -> str) (d d' : OnDisk.disk)
    (input output : str) (r : OnDisk.raised) :
  OnDisk.process_file Hl7Json json_dump d input output = (OnDisk.Raise r, d') ->
  (forall path, path <> output ->
     OnDisk.files d' !! path = OnDisk.files d !! path) /\
  ((OnDisk.read_text d input = OnDisk.Raise r /\ d' = d) \/
   (exists e, r = OnDisk.parser_raised e /\
              derives_from_Exception (exc_type e) = false /\ d' = d) \/
   (exists content st e,
      OnDisk.read_text d input = OnDisk.Value content /\
      for_enumerate Hl7Json 0 (Re.findall content) empty_report = Returns st /\
      r = OnDisk.os_raised e /\
      (d' = d \/
       exists written,
         OnDisk.on_write d output = OnDisk.breaks written e /\
         d' = OnDisk.put d output
                (take written (json_dump (results st)))))).
Proof.
  intros Hrun.
  destruct (process_file_raise_inv _ _ _ _ _ _ _ Hrun)
    as [[Hread ->]|[(e & -> & He & ->)|(content & st & Hread & Hloop & Hw)]].
  - split; [done|]. by left.
  - split; [done|]. right. left. by exists e.
  - split.
    + intros path Hne. by eapply write_text_other.
    + right. right.
      destruct (write_text_raise_inv _ _ _ _ _ Hw) as (e & -> & Hd).
      by exists content, st, e.
Qed.

Lemma process_file_raises_before_writing_witness :
  OnDisk.files
    (OnDisk.put demo_disk (lit "/full/out.json") (lit "entri")) !! lit "in.md" =
  OnDisk.files demo_disk !! lit "in.md".
Proof.
  apply (proj1 (process_file_raises_before_writing demo_parser demo_dump
                  demo_disk
                  (OnDisk.put demo_disk (lit "/full/out.json") (lit "entri"))
                  (lit "in.md") (lit "/full/out.json")
                  (OnDisk.os_raised (OnDisk.OSError (lit "/full/out.json")))
                  eq_refl) (lit "in.md")).
  discriminate.
Defined.

(** X14.  When the input is a file that can be read, the output path takes
    the whole text and the conversion loop returns, [process_file] returns
    the two counters of the loop and the output file holds the dump of the
    result list: reading it back gives that text (as it is when the dump
    holds no carriage return), and every other file reads as before. *)
Theorem process_file_writes_the_report (Hl7Json : parser)
    (json_dump : list result -> str) (d : OnDisk.disk)
    (input output chars : str) (r : report) :
  OnDisk.files d !! input = Some (OnDisk.text_file chars) ->
  accepts_write d output ->
  process_file Hl7Json (OnDisk.translate_newlines false chars) = Returns r ->
  exists d',
    OnDisk.process_file Hl7Json json_dump d input output =
      (OnDisk.Value (successful r, failed r), d') /\
    OnDisk.read_text d' output =
      OnDisk.Value (OnDisk.translate_newlines false (json_dump (results r))) /\
    (OnDisk.cr ∉ json_dump (results r) ->
     OnDisk.read_text d' output = OnDisk.Value (json_dump (results r))) /\
    forall path, path <> output ->
      OnDisk.read_text d' path = OnDisk.read_text d path.
Proof.
  intros Hin Hw Hr. eexists. split; [by eapply process_file_value|].
  split; [apply read_text_written|]. split.
  - intros Hcr. rewrite read_text_written. by rewrite translate_newlines_id.
  - intros path Hne. by apply read_text_other.
Qed.

Lemma process_file_writes_the_report_witness :
  exists d',
    OnDisk.process_file demo_parser demo_dump demo_disk (lit "in.md")
      (lit "out.json") = (OnDisk.Value (1, 1), d') /\
    OnDisk.read_text d' (lit "out.json") = OnDisk.Value (lit "entries: 2").
Proof.
  destruct (process_file_writes_the_report demo_parser demo_dump demo_disk
              (lit "in.md") (lit "out.json") doc_good_bad
              {| successful := 1; failed := 1;
                 results :=
                   [success_result 1
                      (PDict [(lit "MSH", PStr (lit "MSH|^~\&|ADT"))]);
                    failed_result 2 (Some (lit "not an HL7 message"))
                      (lit "garbage")] |})
    as (d' & Hrun & Hread & _).
  - vm_compute. reflexivity.
  - repeat split; vm_compute; done.
  - reflexivity.
  - exists d'. split; [exact Hrun | exact Hread].
Defined.

(** X15.  [main] called with a single argument, or with an input path that
    does not exist, prints one line, changes no file and exits with
    status 1. *)
Theorem main_exits_with_status_1 (Hl7Json : parser)
    (json_dump : list result -> str) (argv : list str) (d : OnDisk.disk) :
  length argv = 2 \/
  (3 <= length argv /\
   exists input, argv !! 1 = Some input /\ OnDisk.files d !! input = None) ->
  exists line,
    OnDisk.main Hl7Json json_dump argv d =
      OnDisk.Ran {| OnDisk.stdout := [line]; OnDisk.disk_after := d;
                    OnDisk.ended := OnDisk.Exit 1 |}.
Proof.
  unfold OnDisk.main. intros [Hlen|(Hlen & input & Hinput & Hmissing)].
  - rewrite Hlen. simpl. by eexists.
  - destruct argv as [|prog [|input' [|output more]]]; simpl in Hlen; try lia.
    injection Hinput as ->. cbn [length]. simpl Nat.ltb. cbv iota.
    change (default [] ((prog :: input :: output :: more) !! 1)) with input.
    rewrite (proj2 (exists_false d input) Hmissing). simpl. by eexists.
Qed.

Lemma main_exits_with_status_1_witness :
  exists line,
    OnDisk.main demo_parser demo_dump
      [lit "main.py"; lit "missing.md"; lit "out.json"] demo_disk =
      OnDisk.Ran {| OnDisk.stdout := [line]; OnDisk.disk_after := demo_disk;
                    OnDisk.ended := OnDisk.Exit 1 |}.
Proof.
  apply (main_exits_with_status_1 demo_parser demo_dump
           [lit "main.py"; lit "missing.md"; lit "out.json"] demo_disk).
  right. split; [simpl; lia|]. exists (lit "missing.md").
  split; [reflexivity | vm_compute; reflexivity].
Defined.

(** X16.  An exception leaves [main] only after the existence check: the
    input path names something, so the exception is not the
    [FileNotFoundError] of a missing input.  It is an error of reading what
    the path names (a directory, a file that may not be read or does not
    decode), an exception of the parser that does not derive from
    [Exception], or an error of the output path after the input was read;
    in the first two cases no file has changed, in the third no file other
    than the output. *)
Theorem main_uncaught_exceptions (Hl7Json : parser)
    (json_dump : list result -> str) (argv : list str) (d : OnDisk.disk)
    (r : OnDisk.run) (x : OnDisk.raised) :
  OnDisk.main Hl7Json json_dump argv d = OnDisk.Ran r ->
  OnDisk.ended r = OnDisk.Uncaught x ->
  exists input output,
    argv !! 1 = Some input /\ argv !! 2 = Some output /\
    is_Some (OnDisk.files d !! input) /\
    ((OnDisk.read_text d input = OnDisk.Raise x /\
      x <> OnDisk.os_raised (OnDisk.FileNotFoundError input) /\
      OnDisk.disk_after r = d) \/
     (exists e, x = OnDisk.parser_raised e /\
                derives_from_Exception (exc_type e) = false /\
                OnDisk.disk_after r = d) \/
     (exists e content,
        x = OnDisk.os_raised e /\
        OnDisk.read_text d input = OnDisk.Value content /\
        forall path, path <> output ->
          OnDisk.files (OnDisk.disk_after r) !! path =
          OnDisk.files d !! path)).
Proof.
  unfold OnDisk.main.
  destruct argv as [|prog [|input [|output more]]];
    [done | done | by intros [= <-] |].
  cbn [length]. simpl Nat.ltb. cbv iota.
  change (default [] ((prog :: input :: output :: more) !! 1)) with input.
  change (default [] ((prog :: input :: output :: more) !! 2)) with output.
  destruct (OnDisk.exists_ d input) eqn:Hex; simpl negb; cbv iota;
    [|by intros [= <-]].
  apply exists_true in Hex.
  destruct (OnDisk.process_file _ _ _ _ _) as [[[s f]|y] d'] eqn:Hrun;
    intros [= <-]; simpl; [done|]. intros [= ->].
  exists input, output. split; [done|]. split; [done|]. split; [done|].
  destruct (process_file_raise_inv _ _ _ _ _ _ _ Hrun)
    as [[Hread ->]|[(e & -> & He & ->)|(content & st & Hread & _ & Hw)]].
  - left. split; [done|]. split; [|done]. intros ->.
    destruct Hex as [entry Hentry]. unfold OnDisk.read_text in Hread.
    rewrite Hentry in Hread. by destruct entry.
  - right. left. by exists e.
  - right. right.
    destruct (write_text_raise_inv _ _ _ _ _ Hw) as (e & -> & _).
    exists e, content. split; [done|]. split; [done|].
    intros path Hne. by eapply write_text_other.
Qed.

Lemma main_uncaught_exceptions_witness :
  exists input output,
    [lit "main.py"; lit "docs"; lit "out.json"] !! 1 = Some input /\
    [lit "main.py"; lit "docs"; lit "out.json"] !! 2 = Some output /\
    is_Some (OnDisk.files demo_disk !! input).
Proof.
  destruct (main_uncaught_exceptions demo_parser demo_dump
              [lit "main.py"; lit "docs"; lit "out.json"] demo_disk
              {| OnDisk.stdout := [lit "Processing docs..."];
                 OnDisk.disk_after := demo_disk;
                 OnDisk.ended :=
                   OnDisk.Uncaught
                     (OnDisk.os_raised
                        (OnDisk.IsADirectoryError (lit "docs"))) |}
              (OnDisk.os_raised (OnDisk.IsADirectoryError (lit "docs"))))
    as (input & output & Hin & Hout & Hsome & _).
  - vm_compute. reflexivity.
  - reflexivity.
  - exists input, output. split; [exact Hin|]. split; [exact Hout|exact Hsome].
Defined.

(** X17.  [convert_file] lets no exception that derives from [Exception]
    escape: what escapes is an exception of the parser that does not derive
    from [Exception], and then no file was written.  On every other path
    exactly one dialog is shown; when the input file does not exist it is
    the error dialog, and the results area and the files stay as they
    were. *)
Theorem convert_file_error_handling (Hl7Json : parser)
    (json_dump : list result -> str)
    (str_of_os_error : OnDisk.os_error -> str)
    (w : OnDisk.window) (d : OnDisk.disk) :
  let g := OnDisk.convert_file Hl7Json json_dump str_of_os_error w d in
  (forall x, OnDisk.escaped g = Some x ->
     (exists e, x = OnDisk.parser_raised e /\
                derives_from_Exception (exc_type e) = false) /\
     OnDisk.gui_disk_after g = d) /\
  (OnDisk.escaped g = None -> length (OnDisk.dialogs g) = 1) /\
  (OnDisk.files d !! OnDisk.input_file w = None ->
     g = {| OnDisk.window_after := w;
            OnDisk.dialogs :=
              [OnDisk.critical (lit "Error")
                 (lit "Input file '" ++ OnDisk.input_file w ++
                  lit "' not found.")];
            OnDisk.gui_disk_after := d;
            OnDisk.escaped := None |}).
Proof.
  unfold OnDisk.convert_file.
  destruct (OnDisk.exists_ d (OnDisk.input_file w)) eqn:Hex; simpl.
  - destruct (OnDisk.process_file _ _ _ _ _) as [[[s f]|y] d'] eqn:Hrun.
    + simpl. split; [done|]. split; [done|].
      intros Hnone. apply exists_true in Hex as [? ?]. congruence.
    + destruct (OnDisk.is_Exception y) eqn:Hy; simpl.
      * split; [done|]. split; [done|].
        intros Hnone. apply exists_true in Hex as [? ?]. congruence.
      * split; [|split; [done|]].
        -- intros x [= <-].
           destruct (process_file_raise_inv _ _ _ _ _ _ _ Hrun)
             as [[Hread ->]|[(e & -> & He & ->)
                            |(content & st & _ & _ & Hw)]].
           ++ unfold OnDisk.read_text in Hread.
              destruct (OnDisk.files d !! OnDisk.input_file w) as [[]|];
                try discriminate Hread; by injection Hread as <-.
           ++ split; [by exists e | done].
           ++ apply write_text_raise_inv in Hw as (e & -> & _). done.
        -- intros Hnone. apply exists_true in Hex as [? ?]. congruence.
  - split; [done|]. split; [done|]. done.
Qed.

Lemma convert_file_error_handling_witness :
  OnDisk.convert_file demo_parser demo_dump demo_os_text
    {| OnDisk.input_file := lit "missing.md";
       OnDisk.output_file := lit "out.json";
       OnDisk.results_text := [lit "earlier run"] |} demo_disk =
  {| OnDisk.window_after :=
       {| OnDisk.input_file := lit "missing.md";
          OnDisk.output_file := lit "out.json";
          OnDisk.results_text := [lit "earlier run"] |};
     OnDisk.dialogs :=
       [OnDisk.critical (lit "Error")
          (lit "Input file '" ++ lit "missing.md" ++ lit "' not found.")];
     OnDisk.gui_disk_after := demo_disk;
     OnDisk.escaped := None |}.
Proof.
  apply (convert_file_error_handling demo_parser demo_dump demo_os_text
           {| OnDisk.input_file := lit "missing.md";
              OnDisk.output_file := lit "out.json";
              OnDisk.results_text := [lit "earlier run"] |} demo_disk).
  vm_compute. reflexivity.
Defined.

(** X18.  A document without a marker pair is not an error for the two
    callers either: the report file is written with the dump of the empty
    list, [main] prints a count of 0 and finishes, and [convert_file] shows
    the warning that no message was converted. *)
Theorem callers_on_a_document_without_blocks (Hl7Json : parser)
    (json_dump : list result -> str)
    (str_of_os_error : OnDisk.os_error -> str)
    (d : OnDisk.disk) (prog input output chars : str)
    (more : list str) (shown : list str) :
  OnDisk.files d !! input = Some (OnDisk.text_file chars) ->
  ~ has_marker_pair (OnDisk.translate_newlines false chars) ->
  accepts_write d output ->
  exists d',
    OnDisk.read_text d' output =
      OnDisk.Value (OnDisk.translate_newlines false (json_dump [])) /\
    (OnDisk.cr ∉ json_dump [] ->
     OnDisk.read_text d' output = OnDisk.Value (json_dump [])) /\
    OnDisk.main Hl7Json json_dump (prog :: input :: output :: more) d =
      OnDisk.Ran
        {| OnDisk.stdout :=
             [lit "Processing " ++ input ++ lit "...";
              lit "Conversion complete:";
              lit "  - Successfully converted: 0 messages";
              lit "  - Failed conversions: 0 messages";
              lit "  - Output saved to: " ++ output];
           OnDisk.disk_after := d';
           OnDisk.ended := OnDisk.Finished |} /\
    let g := OnDisk.convert_file Hl7Json json_dump str_of_os_error
               {| OnDisk.input_file := input; OnDisk.output_file := output;
                  OnDisk.results_text := shown |} d in
    OnDisk.gui_disk_after g = d' /\
    OnDisk.dialogs g =
      [OnDisk.warning (lit "Warning")
         (lit "No messages were converted successfully.")] /\
    OnDisk.escaped g = None.
Proof.
  intros Hin Hno Hw.
  assert (process_file Hl7Json (OnDisk.translate_newlines false chars) =
          Returns empty_report) as Hr.
  { unfold process_file, extract_hl7_messages_from_markdown.
    by rewrite (findall_nil_of_no_pair _ Hno). }
  pose proof (process_file_value Hl7Json json_dump d input output chars _
                Hin Hw Hr) as Hrun.
  assert (OnDisk.exists_ d input = true) as Hex
    by (apply exists_true; by rewrite Hin).
  eexists. split; [apply read_text_written|]. split; [|split].
  - intros Hcr. simpl. rewrite read_text_written.
    by rewrite translate_newlines_id.
  - unfold OnDisk.main. cbn [length]. simpl Nat.ltb. cbv iota.
    change (default [] ((prog :: input :: output :: more) !! 1)) with input.
    change (default [] ((prog :: input :: output :: more) !! 2)) with output.
    rewrite Hex. simpl negb. cbv iota. rewrite Hrun. reflexivity.
  - unfold OnDisk.convert_file. cbn [OnDisk.input_file OnDisk.output_file].
    rewrite Hex. simpl negb. cbv iota. rewrite Hrun. done.
Qed.

Lemma callers_on_a_document_without_blocks_witness :
  exists d',
    OnDisk.read_text d' (lit "out.json") = OnDisk.Value (lit "entries: 0") /\
    OnDisk.dialogs
      (OnDisk.convert_file demo_parser demo_dump demo_os_text
         {| OnDisk.input_file := lit "empty.md";
            OnDisk.output_file := lit "out.json";
            OnDisk.results_text := [] |} demo_disk) =
      [OnDisk.warning (lit "Warning")
         (lit "No messages were converted successfully.")].
Proof.
  destruct (callers_on_a_document_without_blocks demo_parser demo_dump
              demo_os_text demo_disk (lit "main.py") (lit "empty.md")
              (lit "out.json") doc_plain [] [])
    as (d' & Hread & _ & _ & _ & Hdialogs & _).
  - vm_compute. reflexivity.
  - intros (pre & g & post & Hd).
    apply (scan_complete pre g post). rewrite <- Hd. reflexivity.
  - repeat split; vm_compute; done.
  - exists d'. split; [exact Hread | exact Hdialogs].
Defined.

(** ** The conversion of a sheet *)

Section sheet_facts.
Variable rng : Type.
Variable randbelow : nat -> rng -> nat * rng.
Hypothesis randbelow_lt : forall n g, 0 < n -> fst (randbelow n g) < n.

Lemma choice_elem seq g : seq <> [] -> fst (Sheet.choice rng randbelow seq g) ∈ seq.
Proof.
  intros Hne. unfold Sheet.choice.
  pose proof (randbelow_lt (length seq) g) as Hlt.
  destruct (randbelow (length seq) g) as [k g']. simpl in *.
  assert (k < length seq) as Hk by (destruct seq; [done | simpl in *; lia]).
  match goal with
  | |- context [default [] ?cell] => destruct cell as [y|] eqn:Hy
  end.
  - simpl. by eapply list_elem_of_lookup_2.
  - apply lookup_ge_None in Hy. unfold str in *. lia.
Qed.

Lemma generate_random_name_elem name_list g :
  name_list <> [] ->
  fst (Sheet.generate_random_name rng randbelow name_list g) ∈ name_list.
Proof.
  intros Hne. unfold Sheet.generate_random_name.
  destruct name_list as [|x l]; [done|]. by apply choice_elem.
Qed.

Lemma other_middle_names first :
  filter (fun m => m <> first) Sheet.MIDDLE_NAMES <> [].
Proof.
  assert (exists m, m ∈ filter (fun m => m <> first) Sheet.MIDDLE_NAMES)
    as [m Hm].
  { destruct (decide (first = lit "Ali")) as [->|Hne].
    - exists (lit "Hassan"). apply list_elem_of_filter. split; [done|].
      apply list_elem_of_In. vm_compute. tauto.
    - exists (lit "Ali"). apply list_elem_of_filter. split; [done|].
      apply list_elem_of_In. vm_compute. tauto. }
  intros Hnil. rewrite Hnil in Hm. by apply elem_of_nil in Hm.
Qed.

Lemma row_for_ok phone_number g :
  row_ok phone_number (fst (Sheet.row_for rng randbelow phone_number g)).
Proof.
  unfold Sheet.row_for.
  pose proof (generate_random_name_elem Sheet.FIRST_NAMES g ltac:(done)) as H1.
  destruct (Sheet.generate_random_name _ _ Sheet.FIRST_NAMES g) as [first g1].
  pose proof (generate_random_name_elem Sheet.MIDDLE_NAMES g1 ltac:(done)) as H2.
  destruct (Sheet.generate_random_name _ _ Sheet.MIDDLE_NAMES g1) as [middle g2].
  pose proof (generate_random_name_elem Sheet.LAST_NAMES g2 ltac:(done)) as H3.
  destruct (Sheet.generate_random_name _ _ Sheet.LAST_NAMES g2) as [last g3].
  simpl in H1, H2, H3.
  destruct (bool_decide (first = middle) && bool_decide (middle ∈ Sheet.FIRST_NAMES))
    eqn:Hsame.
  - pose proof (other_middle_names first) as Hne.
    pose proof (generate_random_name_elem
                  (filter (fun m => m <> first) Sheet.MIDDLE_NAMES) g3 Hne) as H4.
    destruct (filter (fun m => m <> first) Sheet.MIDDLE_NAMES) as [|t ts] eqn:Ht;
      [done|].
    destruct (Sheet.generate_random_name _ _ (t :: ts) g3) as [middle' g4].
    simpl in *. rewrite <- Ht in H4.
    apply list_elem_of_filter in H4 as [Hdiff Hin].
    repeat split; done.
  - simpl. repeat split; try done.
    intros Heq. change (first = middle) in Heq. subst middle.
    apply andb_false_iff in Hsame as [Hf|Hf];
      apply bool_decide_eq_false in Hf; done.
Qed.

Lemma rows_for_length phones : forall g,
  length (fst (Sheet.rows_for rng randbelow phones g)) = length phones.
Proof.
  induction phones as [|p rest IH]; intros g; simpl; [done|].
  destruct (Sheet.row_for _ _ p g) as [r g1].
  specialize (IH g1). destruct (Sheet.rows_for _ _ rest g1) as [rs g2].
  simpl in *. by rewrite IH.
Qed.

Lemma rows_for_lookup phones : forall g k phone,
  phones !! k = Some phone ->
  exists r, fst (Sheet.rows_for rng randbelow phones g) !! k = Some r /\
            row_ok phone r.
Proof.
  induction phones as [|p rest IH]; intros g k phone Hk; [done|]. simpl.
  pose proof (row_for_ok p g) as Hrow.
  destruct (Sheet.row_for _ _ p g) as [r g1].
  specialize (IH g1). destruct (Sheet.rows_for _ _ rest g1) as [rs g2].
  destruct k as [|k]; simpl in *.
  - injection Hk as <-. by exists r.
  - by apply IH.
Qed.

End sheet_facts.

Section sheet_conversion_facts.
Variable rng : Type.
Variable randbelow : nat -> rng -> nat * rng.
Variable read_excel : str -> Sheet.lib_outcome Sheet.dataframe.
Variable read_csv : str -> Sheet.lib_outcome Sheet.dataframe.
Variable to_csv : list Sheet.row -> str -> option Sheet.lib_error.

Lemma select_picked df ident cells :
  picked df ident cells ->
  Sheet.select_phone_numbers df ident = ([], Sheet.continue cells).
Proof.
  destruct ident as [name|i|]; simpl; [| |done].
  - intros [Hin ->]. rewrite bool_decide_eq_false_2; [done|]. by intros ?.
  - intros [Hi ->]. unfold Sheet.columns. rewrite length_map.
    destruct (Z.leb_spec (Z.of_nat (length df)) i); [lia|].
    destruct (Z.ltb_spec i 0); [lia|]. done.
Qed.

Lemma handle_escaped input so_far e g x :
  Sheet.escaped (Sheet.handle rng input so_far e g) = Some x ->
  x = e /\ Sheet.kind_of e = Sheet.kind_BaseException.
Proof.
  unfold Sheet.handle. destruct (Sheet.kind_of e) eqn:Hk; simpl; try done.
  by intros [= <-].
Qed.

Lemma handle_saved input so_far e g :
  Sheet.saved (Sheet.handle rng input so_far e g) = None.
Proof. unfold Sheet.handle. by destruct (Sheet.kind_of e). Qed.

Lemma handle_printed input so_far e g p :
  Sheet.input_file_not_found p ∈
    Sheet.printed (Sheet.handle rng input so_far e g) ->
  Sheet.input_file_not_found p ∈ so_far \/
  Sheet.kind_of e = Sheet.kind_FileNotFoundError.
Proof.
  unfold Sheet.handle. destruct (Sheet.kind_of e) eqn:Hk; simpl.
  - by right.
  - rewrite elem_of_app, list_elem_of_singleton. intros [?|?]; [by left|done].
  - by left.
Qed.

Lemma read_input_printed path p :
  Sheet.input_file_not_found p ∉
    fst (Sheet.read_input read_excel read_csv path).
Proof.
  unfold Sheet.read_input.
  destruct (read_excel path) as [df|e]; simpl.
  - rewrite list_elem_of_singleton. done.
  - destruct (Sheet.caught_by_Exception e); [|apply not_elem_of_nil].
    destruct (Sheet.endswith _ _).
    + destruct (read_csv path) as [df|e2];
        [|destruct (Sheet.caught_by_Exception e2)]; simpl;
        rewrite ?elem_of_cons, ?elem_of_nil;
        intros H; by decompose [or] H.
    + simpl. rewrite ?elem_of_cons, ?elem_of_nil.
      intros H; by decompose [or] H.
Qed.

Lemma select_printed df ident p :
  Sheet.input_file_not_found p ∉
    fst (Sheet.select_phone_numbers df ident).
Proof.
  unfold Sheet.select_phone_numbers.
  destruct ident as [name|i|];
    [destruct (bool_decide _) | destruct (_ || _) |]; simpl;
    rewrite ?elem_of_cons, ?elem_of_nil; intros H; by decompose [or] H.
Qed.

Lemma select_never_raises df ident printed_2 e :
  Sheet.select_phone_numbers df ident <> (printed_2, Sheet.raising e).
Proof.
  unfold Sheet.select_phone_numbers.
  destruct ident as [name|i|];
    [destruct (bool_decide _) | destruct (_ || _) |]; done.
Qed.

End sheet_conversion_facts.

(** X19.  One row for each cell: when the sheet is read, the identifier
    names one of its columns and the file is saved, the saved rows are as
    many as the cells of the column, in the same order, and the row of a
    cell holds the cleaned number of that cell; its first name, middle name
    and last name come from the three lists, and the middle name is never
    the first name. *)
Theorem saved_rows_follow_the_column (rng : Type)
    (randbelow : nat -> rng -> nat * rng)
    (read_excel read_csv : str -> Sheet.lib_outcome Sheet.dataframe)
    (to_csv : list Sheet.row -> str -> option Sheet.lib_error)
    (input output : str) (ident : Sheet.identifier) (g : rng)
    (df : Sheet.dataframe) (cells : list Contacts.phone_value) :
  (forall n g, 0 < n -> fst (randbelow n g) < n) ->
  read_excel input = Sheet.lib_ok df ->
  picked df ident cells ->
  (forall rows, to_csv rows output = None) ->
  exists rows,
    Sheet.saved (Sheet.convert_excel_to_custom_csv rng randbelow read_excel
                   read_csv to_csv input ident output g) = Some rows /\
    length rows = length cells /\
    forall k cell, cells !! k = Some cell ->
      exists r, rows !! k = Some r /\ row_ok cell r.
Proof.
  intros Hrand Hread Hpick Hsave.
  unfold Sheet.convert_excel_to_custom_csv, Sheet.read_input.
  rewrite Hread, (select_picked _ _ _ Hpick).
  pose proof (rows_for_length rng randbelow cells g) as Hlen.
  pose proof (rows_for_lookup rng randbelow Hrand cells g) as Hrows.
  destruct (Sheet.rows_for rng randbelow cells g) as [rows g'].
  rewrite Hsave. simpl in *. by exists rows.
Qed.

Lemma saved_rows_follow_the_column_witness :
  exists rows,
    Sheet.saved (Sheet.convert_excel_to_custom_csv nat demo_randbelow
                   demo_read_excel demo_read_csv demo_to_csv
                   (lit "phone_numbers.xlsx") (Sheet.by_name (lit "Phone Number"))
                   (lit "qts_contacts.csv") 7) = Some rows /\
    length rows = 2.
Proof.
  destruct (saved_rows_follow_the_column nat demo_randbelow demo_read_excel
              demo_read_csv demo_to_csv (lit "phone_numbers.xlsx")
              (lit "qts_contacts.csv") (Sheet.by_name (lit "Phone Number")) 7
              demo_sheet
              [Contacts.phone_str (lit "+7999745-12-15");
               Contacts.phone_int 1234567890])
    as (rows & Hsaved & Hlen & _).
  - intros n g Hn. simpl. apply Nat.mod_upper_bound. lia.
  - reflexivity.
  - split; [|reflexivity]. apply list_elem_of_In. vm_compute. tauto.
  - reflexivity.
  - exists rows. split; [exact Hsaved | exact Hlen].
Defined.

(** X20.  A column that cannot be found stops the conversion before any
    name is drawn and before anything is saved: a name that is not a
    column of the sheet, an index beyond the last column, a negative index,
    or an identifier that is neither a string nor an integer. *)
Theorem unknown_column_saves_nothing (rng : Type)
    (randbelow : nat -> rng -> nat * rng)
    (read_excel read_csv : str -> Sheet.lib_outcome Sheet.dataframe)
    (to_csv : list Sheet.row -> str -> option Sheet.lib_error)
    (input output : str) (ident : Sheet.identifier) (g : rng)
    (df : Sheet.dataframe) :
  read_excel input = Sheet.lib_ok df ->
  match ident with
  | Sheet.by_name name => name ∉ Sheet.columns df
  | Sheet.by_index i => (i < 0 \/ Z.of_nat (length df) <= i)%Z
  | Sheet.neither => True
  end ->
  let c := Sheet.convert_excel_to_custom_csv rng randbelow read_excel
             read_csv to_csv input ident output g in
  Sheet.saved c = None /\ Sheet.escaped c = None /\ Sheet.generator c = g /\
  Sheet.printed c =
    Sheet.read_as_excel input ::
    match ident with
    | Sheet.by_name name =>
        [Sheet.column_not_found name;
         Sheet.available_columns (Sheet.columns df)]
    | Sheet.by_index i =>
        [Sheet.index_out_of_bounds i;
         Sheet.file_has_columns (length df) (Sheet.columns df)]
    | Sheet.neither => [Sheet.identifier_must_be_str_or_int]
    end.
Proof.
  intros Hread Hbad.
  assert (Sheet.select_phone_numbers df ident =
          (match ident with
           | Sheet.by_name name =>
               [Sheet.column_not_found name;
                Sheet.available_columns (Sheet.columns df)]
           | Sheet.by_index i =>
               [Sheet.index_out_of_bounds i;
                Sheet.file_has_columns (length df) (Sheet.columns df)]
           | Sheet.neither => [Sheet.identifier_must_be_str_or_int]
           end, Sheet.returned)) as Hsel.
  { destruct ident as [name|i|]; simpl; [| |done].
    - by rewrite (bool_decide_eq_true_2 _ Hbad).
    - unfold Sheet.columns at 1 2. rewrite !length_map.
      destruct (Z.leb_spec (Z.of_nat (length df)) i);
        destruct (Z.ltb_spec i 0); simpl; try done. lia. }
  unfold Sheet.convert_excel_to_custom_csv, Sheet.read_input.
  rewrite Hread, Hsel. done.
Qed.

Lemma unknown_column_saves_nothing_witness :
  Sheet.saved (Sheet.convert_excel_to_custom_csv nat demo_randbelow
                 demo_read_excel demo_read_csv demo_to_csv
                 (lit "phone_numbers.xlsx") (Sheet.by_index (-1))
                 (lit "qts_contacts.csv") 7) = None.
Proof.
  apply (unknown_column_saves_nothing nat demo_randbelow demo_read_excel
           demo_read_csv demo_to_csv (lit "phone_numbers.xlsx")
           (lit "qts_contacts.csv") (Sheet.by_index (-1)) 7 demo_sheet).
  - reflexivity.
  - left. lia.
Defined.

(** X21.  The function lets no exception that derives from [Exception]
    escape, and saves nothing when one escapes.  The line that says that
    the input file was not found is printed only when the writer of the
    output raised [FileNotFoundError]: a failure to read the input,
    [FileNotFoundError] included, is caught by the inner handler and
    reported as a failure to read the file as Excel. *)
Theorem exceptions_of_the_conversion (rng : Type)
    (randbelow : nat -> rng -> nat * rng)
    (read_excel read_csv : str -> Sheet.lib_outcome Sheet.dataframe)
    (to_csv : list Sheet.row -> str -> option Sheet.lib_error)
    (input output : str) (ident : Sheet.identifier) (g : rng) :
  let c := Sheet.convert_excel_to_custom_csv rng randbelow read_excel
             read_csv to_csv input ident output g in
  (forall e, Sheet.escaped c = Some e ->
     Sheet.kind_of e = Sheet.kind_BaseException /\ Sheet.saved c = None) /\
  (forall p, Sheet.input_file_not_found p ∈ Sheet.printed c ->
     exists rows e,
       to_csv rows output = Some e /\
       Sheet.kind_of e = Sheet.kind_FileNotFoundError) /\
  (forall e, read_excel input = Sheet.lib_raise e ->
     Sheet.caught_by_Exception e = true ->
     exists rest,
       Sheet.printed c =
         Sheet.could_not_read_as_excel input (Sheet.text_of e) :: rest).
Proof.
  unfold Sheet.convert_excel_to_custom_csv.
  pose proof (read_input_printed read_excel read_csv input) as Hp1.
  assert (forall e, read_excel input = Sheet.lib_raise e ->
            Sheet.caught_by_Exception e = true ->
            exists rest flow,
              Sheet.read_input read_excel read_csv input =
                (Sheet.could_not_read_as_excel input (Sheet.text_of e) :: rest,
                 flow) /\
              (forall df, flow <> Sheet.raising df \/ rest = []) /\
              True) as Hfirst.
  { intros e He Hc. unfold Sheet.read_input. rewrite He, Hc.
    destruct (Sheet.endswith _ _);
      [destruct (read_csv input) as [df|e2];
       [|destruct (Sheet.caught_by_Exception e2)]|];
      simpl; eexists _, _; (split; [reflexivity|]); split; auto;
      intros df; by left + by right. }
  destruct (Sheet.read_input read_excel read_csv input) as [printed_1 read]
    eqn:Hread.
  simpl in Hp1.
  assert (forall e, read_excel input = Sheet.lib_raise e ->
            Sheet.caught_by_Exception e = true ->
            exists rest, printed_1 =
              Sheet.could_not_read_as_excel input (Sheet.text_of e) :: rest)
    as Hstart.
  { intros e He Hc. destruct (Hfirst e He Hc) as (rest & fl & [= -> _] & _).
    by exists rest. }
  clear Hfirst.
  destruct read as [df| |e0].
  - pose proof (select_printed df ident) as Hp2.
    destruct (Sheet.select_phone_numbers df ident) as [printed_2 selected]
      eqn:Hsel.
    simpl in Hp2. destruct selected as [cells| |e1].
    + destruct (Sheet.rows_for rng randbelow cells g) as [rows g'].
      destruct (to_csv rows output) as [e2|] eqn:Hcsv.
      * split; [|split].
        -- intros e Hesc. apply handle_escaped in Hesc as [-> Hk].
           split; [done|]. apply handle_saved.
        -- intros p Hin. apply handle_printed in Hin as [Hin|Hk].
           ++ exfalso. rewrite !elem_of_app in Hin.
              destruct Hin as [Hin|[Hin|Hin]]; [by apply (Hp1 p)
                                                |by apply (Hp2 p)|].
              destruct rows; [|by apply elem_of_nil in Hin].
              by apply list_elem_of_singleton in Hin.
           ++ by exists rows, e2.
        -- intros e He Hc. destruct (Hstart e He Hc) as [rest ->].
           unfold Sheet.handle. destruct (Sheet.kind_of e2); simpl;
             by eexists.
      * simpl. split; [done|]. split.
        -- intros p Hin. exfalso. rewrite !elem_of_app in Hin.
           destruct Hin as [[Hin|[Hin|Hin]]|Hin]; [by apply (Hp1 p)
                                                   |by apply (Hp2 p)| |].
           ++ destruct rows; [|by apply elem_of_nil in Hin].
              by apply list_elem_of_singleton in Hin.
           ++ by apply list_elem_of_singleton in Hin.
        -- intros e He Hc. destruct (Hstart e He Hc) as [rest ->].
           simpl. by eexists.
    + simpl. split; [done|]. split.
      * intros p Hin. exfalso. rewrite elem_of_app in Hin.
        destruct Hin as [Hin|Hin]; [by apply (Hp1 p) | by apply (Hp2 p)].
      * intros e He Hc. destruct (Hstart e He Hc) as [rest ->].
        simpl. by eexists.
    + by apply select_never_raises in Hsel.
  - simpl. split; [done|]. split.
    + intros p Hin. by apply Hp1 in Hin.
    + intros e He Hc. destruct (Hstart e He Hc) as [rest ->]. by eexists.
  - split; [|split].
    + intros e Hesc. apply handle_escaped in Hesc as [-> Hk].
      split; [done|]. apply handle_saved.
    + intros p Hin. apply handle_printed in Hin as [Hin|Hk];
        [by apply Hp1 in Hin|].
      exfalso. revert Hread. unfold Sheet.read_input.
      destruct (read_excel input) as [df|e]; [done|].
      destruct (Sheet.caught_by_Exception e) eqn:Hc.
      * destruct (Sheet.endswith _ _); [|done].
        destruct (read_csv input) as [df|e2]; [done|].
        destruct (Sheet.caught_by_Exception e2) eqn:Hc2; [done|].
        intros [= _ <-]. unfold Sheet.caught_by_Exception in Hc2.
        by rewrite Hk in Hc2.
      * intros [= _ <-]. unfold Sheet.caught_by_Exception in Hc.
        by rewrite Hk in Hc.
    + intros e He Hc. destruct (Hstart e He Hc) as [rest ->].
      unfold Sheet.handle. destruct (Sheet.kind_of e0); simpl; by eexists.
Qed.

Lemma exceptions_of_the_conversion_witness :
  exists rest,
    Sheet.printed
      (Sheet.convert_excel_to_custom_csv nat demo_randbelow demo_read_excel
         demo_read_csv demo_to_csv (lit "missing.xls") (Sheet.by_index 0)
         (lit "qts_contacts.csv") 7) =
    Sheet.could_not_read_as_excel (lit "missing.xls")
      (lit "No such file or directory") :: rest.
Proof.
  apply (proj2 (proj2 (exceptions_of_the_conversion nat demo_randbelow
                         demo_read_excel demo_read_csv demo_to_csv
                         (lit "missing.xls") (lit "qts_contacts.csv")
                         (Sheet.by_index 0) 7))
           (Sheet.mk_lib_error Sheet.kind_FileNotFoundError
              (lit "No such file or directory")));
    reflexivity.
Defined.

(** X22.  The fall back on [read_csv] is for paths that end in [.csv],
    whatever the case of the letters.  When reading as Excel fails, another
    path stops the conversion with the advice on file types, and a [.csv]
    path that cannot be read as CSV either stops it as well; when the CSV
    is read, the rows saved, the escaping exception and the generator are
    those of a conversion whose Excel reading gave that sheet. *)
Theorem fall_back_on_csv (rng : Type)
    (randbelow : nat -> rng -> nat * rng)
    (read_excel read_csv : str -> Sheet.lib_outcome Sheet.dataframe)
    (to_csv : list Sheet.row -> str -> option Sheet.lib_error)
    (input output : str) (ident : Sheet.identifier) (g : rng)
    (e : Sheet.lib_error) :
  read_excel input = Sheet.lib_raise e ->
  Sheet.caught_by_Exception e = true ->
  let c := Sheet.convert_excel_to_custom_csv rng randbelow read_excel
             read_csv to_csv input ident output g in
  let could_not :=
    Sheet.could_not_read_as_excel input (Sheet.text_of e) in
  (Sheet.endswith (lit ".csv") (Sheet.lower input) = false ->
   c = {| Sheet.printed := [could_not; Sheet.please_ensure_valid_file];
          Sheet.saved := None; Sheet.escaped := None;
          Sheet.generator := g |}) /\
  (Sheet.endswith (lit ".csv") (Sheet.lower input) = true ->
   (forall e_csv, read_csv input = Sheet.lib_raise e_csv ->
      Sheet.caught_by_Exception e_csv = true ->
      c = {| Sheet.printed :=
               [could_not;
                Sheet.could_not_read_as_csv input (Sheet.text_of e_csv)];
             Sheet.saved := None; Sheet.escaped := None;
             Sheet.generator := g |}) /\
   (forall df, read_csv input = Sheet.lib_ok df ->
      let c' := Sheet.convert_excel_to_custom_csv rng randbelow
                  (fun _ => Sheet.lib_ok df) read_csv to_csv input ident
                  output g in
      Sheet.saved c = Sheet.saved c' /\
      Sheet.escaped c = Sheet.escaped c' /\
      Sheet.generator c = Sheet.generator c')).
Proof.
  intros He Hc.
  unfold Sheet.convert_excel_to_custom_csv, Sheet.read_input.
  rewrite He, Hc. split; [by intros ->|]. intros ->. split.
  - by intros e_csv -> ->.
  - intros df ->.
    destruct (Sheet.select_phone_numbers df ident) as [printed_2 [cells| |e1]];
      [|done|].
    + destruct (Sheet.rows_for rng randbelow cells g) as [rows g'].
      destruct (to_csv rows output) as [e2|]; [|done].
      unfold Sheet.handle. by destruct (Sheet.kind_of e2).
    + unfold Sheet.handle. by destruct (Sheet.kind_of e1).
Qed.

Lemma fall_back_on_csv_witness :
  Sheet.convert_excel_to_custom_csv nat demo_randbelow demo_read_excel
    demo_read_csv demo_to_csv (lit "Phones.CSV") (Sheet.by_index 0)
    (lit "qts_contacts.csv") 7 =
  {| Sheet.printed :=
       [Sheet.could_not_read_as_excel (lit "Phones.CSV")
          (lit "No such file or directory");
        Sheet.could_not_read_as_csv (lit "Phones.CSV")
          (lit "No columns to parse")];
     Sheet.saved := None; Sheet.escaped := None; Sheet.generator := 7 |}.
Proof.
  apply (proj1 (proj2 (fall_back_on_csv nat demo_randbelow demo_read_excel
                         demo_read_csv demo_to_csv (lit "Phones.CSV")
                         (lit "qts_contacts.csv") (Sheet.by_index 0) 7
                         (Sheet.mk_lib_error Sheet.kind_FileNotFoundError
                            (lit "No such file or directory"))
                         eq_refl eq_refl) eq_refl)
           (Sheet.mk_lib_error Sheet.kind_Exception
              (lit "No columns to parse")));
    reflexivity.
Defined.

(** X23.  A column without cells is not an error: no name is drawn, the
    lack of data is printed, and the file is still saved, with no row. *)
Theorem empty_column_is_still_saved (rng : Type)
    (randbelow : nat -> rng -> nat * rng)
    (read_excel read_csv : str -> Sheet.lib_outcome Sheet.dataframe)
    (to_csv : list Sheet.row -> str -> option Sheet.lib_error)
    (input output : str) (ident : Sheet.identifier) (g : rng)
    (df : Sheet.dataframe) :
  read_excel input = Sheet.lib_ok df ->
  picked df ident [] ->
  to_csv [] output = None ->
  Sheet.convert_excel_to_custom_csv rng randbelow read_excel read_csv to_csv
    input ident output g =
  {| Sheet.printed := [Sheet.read_as_excel input; Sheet.no_data_processed;
                       Sheet.saved_to output];
     Sheet.saved := Some []; Sheet.escaped := None; Sheet.generator := g |}.
Proof.
  intros Hread Hpick Hsave.
  unfold Sheet.convert_excel_to_custom_csv, Sheet.read_input.
  rewrite Hread, (select_picked _ _ _ Hpick). simpl. by rewrite Hsave.
Qed.

Lemma empty_column_is_still_saved_witness :
  Sheet.saved
    (Sheet.convert_excel_to_custom_csv nat demo_randbelow
       (fun _ => Sheet.lib_ok [(lit "Phone Number", [])]) demo_read_csv
       demo_to_csv (lit "empty.xlsx") (Sheet.by_index 0)
       (lit "qts_contacts.csv") 7) = Some [].
Proof.
  rewrite (empty_column_is_still_saved nat demo_randbelow
             (fun _ => Sheet.lib_ok [(lit "Phone Number", [])]) demo_read_csv
             demo_to_csv (lit "empty.xlsx") (lit "qts_contacts.csv")
             (Sheet.by_index 0) 7 [(lit "Phone Number", [])]).
  - reflexivity.
  - reflexivity.
  - split; [simpl; lia | reflexivity].
  - reflexivity.
Defined.

(** ** The two test scripts *)

(** X24.  What [test_hl7_converter.py] prints for its sample message: the
    error line when the conversion returned an error text that is not
    empty, the JSON output otherwise.  An exception whose text is empty is
    therefore shown as the JSON output of [None], not as an error. *)
Theorem test_script_output (Hl7Json : parser) (json_dumps : pyval -> str) :
  (forall e, Hl7Json HL7Test.sample_message = Raises e ->
     derives_from_Exception (exc_type e) = true ->
     HL7Test.main Hl7Json json_dumps =
       Returns
         (if bool_decide (exc_text e = []) then
            [nl :: lit "Final JSON output:"; json_dumps PNone]
          else [lit "Error: " ++ exc_text e])) /\
  (forall v, Hl7Json HL7Test.sample_message = Returns v ->
     HL7Test.main Hl7Json json_dumps =
       Returns [nl :: lit "Final JSON output:"; json_dumps v]).
Proof.
  unfold HL7Test.main. split.
  - intros e He Hd. rewrite (convert_caught _ _ _ He Hd). simpl.
    by destruct (exc_text e).
  - intros v Hv. by rewrite (convert_returns _ _ _ Hv).
Qed.

Lemma test_script_output_witness :
  HL7Test.main demo_parser (fun _ => lit "{...}") =
    Returns [nl :: lit "Final JSON output:"; lit "{...}"].
Proof.
  apply (proj2 (test_script_output demo_parser (fun _ => lit "{...}"))
           (PDict [(lit "MSH", PStr HL7Test.sample_message)])).
  reflexivity.
Defined.

(** X25.  The format assertion of [test_excel_processing] on the saved
    rows: every saved phone number is an optional plus sign followed by at
    least one digit exactly when every cell of the phone column holds a
    digit. *)
Theorem saved_numbers_pass_the_format_check (rng : Type)
    (randbelow : nat -> rng -> nat * rng)
    (read_excel read_csv : str -> Sheet.lib_outcome Sheet.dataframe)
    (to_csv : list Sheet.row -> str -> option Sheet.lib_error)
    (input output : str) (ident : Sheet.identifier) (g : rng)
    (df : Sheet.dataframe) (cells : list Contacts.phone_value) :
  (forall n g, 0 < n -> fst (randbelow n g) < n) ->
  read_excel input = Sheet.lib_ok df ->
  picked df ident cells ->
  (forall rows, to_csv rows output = None) ->
  exists rows,
    Sheet.saved (Sheet.convert_excel_to_custom_csv rng randbelow read_excel
                   read_csv to_csv input ident output g) = Some rows /\
    (Forall (fun r => Contacts.matches_phone_format (Sheet.phone_1_value r)
                      = true) rows <->
     Forall (fun cell => exists c, c ∈ Contacts.as_str cell /\
                                   Contacts.is_digit c = true) cells).
Proof.
  intros Hrand Hread Hpick Hsave.
  unfold Sheet.convert_excel_to_custom_csv, Sheet.read_input.
  rewrite Hread, (select_picked _ _ _ Hpick).
  pose proof (rows_for_length rng randbelow cells g) as Hlen.
  pose proof (rows_for_lookup rng randbelow Hrand cells g) as Hrows.
  destruct (Sheet.rows_for rng randbelow cells g) as [rows g'].
  rewrite Hsave. simpl in *. exists rows. split; [done|].
  rewrite !Forall_lookup. split.
  - intros Hall k cell Hk. destruct (Hrows k cell Hk) as (r & Hr & Hphone & _).
    apply (proj1 (clean_format_facts cell)). rewrite <- Hphone.
    by apply (Hall k).
  - intros Hall k r Hr.
    destruct (lookup_lt_is_Some_2 cells k) as [cell Hk].
    { rewrite <- Hlen. by eapply lookup_lt_Some. }
    destruct (Hrows k cell Hk) as (r' & Hr' & Hphone & _).
    assert (r' = r) as -> by congruence.
    rewrite Hphone. apply (proj1 (clean_format_facts cell)). by apply (Hall k).
Qed.

Lemma saved_numbers_pass_the_format_check_witness :
  exists rows,
    Sheet.saved (Sheet.convert_excel_to_custom_csv nat demo_randbelow
                   demo_read_excel demo_read_csv demo_to_csv
                   (lit "phone_numbers.xlsx") (Sheet.by_index 0)
                   (lit "qts_contacts.csv") 7) = Some rows /\
    ~ Forall (fun r => Contacts.matches_phone_format (Sheet.phone_1_value r)
                       = true) rows.
Proof.
  destruct (saved_numbers_pass_the_format_check nat demo_randbelow
              demo_read_excel demo_read_csv demo_to_csv
              (lit "phone_numbers.xlsx") (lit "qts_contacts.csv")
              (Sheet.by_index 0) 7 demo_sheet
              [Contacts.phone_str (lit "A"); Contacts.phone_str (lit "B")])
    as (rows & Hsaved & Hiff).
  - intros n g Hn. simpl. apply Nat.mod_upper_bound. lia.
  - reflexivity.
  - split; [simpl; lia | reflexivity].
  - reflexivity.
  - exists rows. split; [exact Hsaved|].
    intros Hall. apply Hiff in Hall.
    inversion Hall as [|? ? (c & Hc & Hd) _]; subst.
    cbv [Contacts.as_str lit list_ascii_of_string] in Hc.
    apply list_elem_of_singleton in Hc. subst c. discriminate Hd.
Defined.

(** ** The file selection of the window *)

Section selection_facts.
Import Selection.

Lemma handle_invariant st c :
  selection_invariant st -> selection_invariant (handle st c).
Proof.
  intros (He & Hi & Ho). destruct c as [p|p]; simpl;
    unfold select_input_file, select_output_file;
    destruct (non_empty p) eqn:Hp; try done;
    unfold selection_invariant; simpl; rewrite Hp; done.
Qed.

Lemma foldl_invariant clicks : forall st,
  selection_invariant st -> selection_invariant (foldl handle st clicks).
Proof.
  induction clicks as [|c clicks IH]; intros st Hst; [done|].
  simpl. apply IH. by apply handle_invariant.
Qed.

Lemma handle_keeps_paths st c :
  (non_empty (input_file st) = true ->
   non_empty (input_file (handle st c)) = true) /\
  (non_empty (output_file st) = true ->
   non_empty (output_file (handle st c)) = true).
Proof.
  destruct c as [p|p]; simpl; unfold select_input_file, select_output_file;
    destruct (non_empty p) eqn:Hp; simpl; auto.
Qed.

Lemma foldl_keeps_paths clicks : forall st,
  (non_empty (input_file st) = true ->
   non_empty (input_file (foldl handle st clicks)) = true) /\
  (non_empty (output_file st) = true ->
   non_empty (output_file (foldl handle st clicks)) = true).
Proof.
  induction clicks as [|c clicks IH]; intros st; [done|]. simpl.
  destruct (handle_keeps_paths st c) as [H1 H2].
  destruct (IH (handle st c)) as [H3 H4]. auto.
Qed.

End selection_facts.

(** X26.  After any sequence of clicks on the two Browse buttons, cancelled
    dialogs included, the Convert button is enabled exactly when an input
    path and an output path are chosen, the labels show the chosen paths,
    and further clicks never disable the button again. *)
Theorem convert_button_follows_the_selection
    (clicks more : list Selection.click) :
  selection_invariant (Selection.after clicks) /\
  (Selection.convert_enabled (Selection.after clicks) = true <->
   Selection.input_file (Selection.after clicks) <> [] /\
   Selection.output_file (Selection.after clicks) <> []) /\
  (Selection.convert_enabled (Selection.after clicks) = true ->
   Selection.convert_enabled (Selection.after (clicks ++ more)) = true).
Proof.
  assert (selection_invariant (Selection.after clicks)) as Hinv.
  { apply foldl_invariant. by repeat split. }
  split; [done|]. split.
  - destruct Hinv as (-> & _ & _).
    destruct (Selection.input_file _), (Selection.output_file _); simpl;
      split; try done; intros [? ?]; done.
  - intros Hen. unfold Selection.after in *. rewrite foldl_app.
    pose proof (foldl_invariant more _ Hinv) as (-> & _ & _).
    destruct Hinv as (He & _ & _). rewrite He in Hen.
    apply andb_prop in Hen as [Hi Ho].
    destruct (foldl_keeps_paths more (foldl Selection.handle Selection.initial
                                        clicks)) as [H1 H2].
    by rewrite (H1 Hi), (H2 Ho).
Qed.

Lemma convert_button_follows_the_selection_witness :
  Selection.convert_enabled
    (Selection.after
       ([Selection.browse_input (lit "in.md");
         Selection.browse_output (lit "out.json")] ++
        [Selection.browse_input []])) = true.
Proof.
  apply (proj2 (proj2 (convert_button_follows_the_selection
                         [Selection.browse_input (lit "in.md");
                          Selection.browse_output (lit "out.json")]
                         [Selection.browse_input []]))).
  reflexivity.
Defined.
